(** * News-Summary: extraction heuristics and summarisation fallback

    A shallow embedding of [app.py]: the [NewsExtractor] and
    [NewsSummarizer] classes.  Python strings are sequences of Unicode code
    points, so a [str] is a list of code points and [len] is [length].
    Exceptions are explicit ([result]), the network is a log of the URLs
    that were requested, and a parsed page is a tree of tags and text
    nodes on which the CSS selectors of the program are evaluated. *)

From Stdlib Require Import Ascii String.
From Stdlib Require Import List NArith ZArith Arith Bool Lia Permutation.
Import ListNotations.

Set Warnings "-register-all".

(** ** Python strings *)

Module Py.

Definition char := N.
Definition str := list char.

(** A string literal of the source, as its code points. *)
Definition lit (s : string) : str := map N_of_ascii (list_ascii_of_string s).

Definition SPACE : char := 32%N.
Definition NEWLINE : char := 10%N.

(** [str.isspace] on one code point.  [str.strip()] and the [\s] class of
    [re] on a [str] pattern both use this table. *)
Definition isspace (c : char) : bool :=
  ((9 <=? c) && (c <=? 13) || (28 <=? c) && (c <=? 32)
   || (c =? 133) || (c =? 160) || (c =? 5760)
   || (8192 <=? c) && (c <=? 8202)
   || (c =? 8232) || (c =? 8233) || (c =? 8239) || (c =? 8287)
   || (c =? 12288))%N.

Fixpoint str_eqb (a b : str) : bool :=
  match a, b with
  | [], [] => true
  | x :: a', y :: b' => (x =? y)%N && str_eqb a' b'
  | _, _ => false
  end.

(** Truth value of a string: [bool(s)], false exactly for the empty one. *)
Definition truthy (s : str) : bool :=
  match s with [] => false | _ :: _ => true end.

(** [s.startswith(p)] *)
Fixpoint startswith (p s : str) : bool :=
  match p, s with
  | [], _ => true
  | x :: p', y :: s' => (x =? y)%N && startswith p' s'
  | _ :: _, [] => false
  end.

(** [p in s] for strings: [p] occurs in [s] as a substring. *)
Fixpoint contains (p s : str) : bool :=
  startswith p s || match s with [] => false | _ :: s' => contains p s' end.

(** [s.lstrip()], [s.rstrip()] and [s.strip()] without argument. *)
Fixpoint lstrip (s : str) : str :=
  match s with
  | [] => []
  | c :: s' => if isspace c then lstrip s' else s
  end.

Definition rstrip (s : str) : str := rev (lstrip (rev s)).

Definition strip (s : str) : str := rstrip (lstrip s).

(** [sep.join(parts)] *)
Fixpoint join (sep : str) (parts : list str) : str :=
  match parts with
  | [] => []
  | [p] => p
  | p :: rest => p ++ sep ++ join sep rest
  end.

(** [s.split(sep)] for a non-empty [sep]: the text between the occurrences
    of [sep], found from the left and not overlapping.  [skip] counts the
    characters of a separator still to be passed over, [cur] holds the
    current piece, last character first. *)
Fixpoint split_from (sep s : str) (skip : nat) (cur : str) : list str :=
  match s with
  | [] => [rev cur]
  | c :: s' =>
      match skip with
      | S k => split_from sep s' k cur
      | O =>
          if startswith sep s
          then rev cur :: split_from sep s' (length sep - 1) []
          else split_from sep s' 0 (c :: cur)
      end
  end.

Definition split (sep s : str) : list str := split_from sep s 0 [].

(** [s.replace(old, new)] for a non-empty [old]. *)
Definition replace (old new s : str) : str := join new (split old s).

(** [re.sub(r'\s+', ' ', s)]: every maximal run of whitespace becomes one
    space.  [in_run] tells that the previous character was whitespace. *)
Fixpoint sub_ws_from (s : str) (in_run : bool) : str :=
  match s with
  | [] => []
  | c :: s' =>
      if isspace c
      then (if in_run then sub_ws_from s' true else SPACE :: sub_ws_from s' true)
      else c :: sub_ws_from s' false
  end.

Definition re_sub_ws (s : str) : str := sub_ws_from s false.

(** [s[:n]] *)
Definition slice_to (n : nat) (s : str) : str := firstn n s.

End Py.

Import Py.

(** ** Exceptions and effects

    A computation takes the trace of the effects performed so far and
    returns a value or a raised exception together with the extended
    trace.  The trace is what makes "no network call" a statement. *)

Inductive exn : Type :=
| RequestException (msg : str)   (* requests.RequestException and subclasses *)
| Exception (msg : str).         (* any other subclass of Exception *)

Definition exn_str (e : exn) : str :=
  match e with RequestException m => m | Exception m => m end.

Inductive result (A : Type) : Type :=
| Ok (a : A)
| Raise (e : exn).

Arguments Ok {A} a.
Arguments Raise {A} e.

Inductive event : Type :=
| HttpGet (url : str)              (* requests.get(url, headers=..., timeout=10) *)
| ReplicateRun (model prompt : str) (* client.run(model, input={"prompt": prompt}) *)
| PrintLine (line : str).

Definition trace := list event.

Definition io (A : Type) : Type := trace -> result A * trace.

Definition ret {A} (a : A) : io A := fun t => (Ok a, t).

Definition bind {A B} (c : io A) (k : A -> io B) : io B :=
  fun t => match c t with
           | (Ok a, t') => k a t'
           | (Raise e, t') => (Raise e, t')
           end.

(** A pure step that may raise. *)
Definition lift {A} (r : result A) : io A := fun t => (r, t).

(** An effect: record the event, then deliver the outcome. *)
Definition perform {A} (ev : event) (r : result A) : io A :=
  fun t => (r, t ++ [ev]).

(** [try: body  except ... as e: handler(e)] *)
Definition try_except {A} (body : io A) (handler : exn -> io A) : io A :=
  fun t => match body t with
           | (Ok a, t') => (Ok a, t')
           | (Raise e, t') => handler e t'
           end.

Notation "x <- c ;; k" := (bind c (fun x => k))
  (at level 61, c at next level, right associativity).

(** ** Parsed pages

    What [BeautifulSoup(..., 'html.parser')] builds, as far as the program
    looks at it: tags with a name, the list of values of their [class]
    attribute (empty when there is none) and their contents, and strings.
    Every string has the class the parser gave it: text inside [script],
    [style], [template], [rt] and [rp] gets a class of its own, comments
    and declarations too, everything else is a plain [NavigableString]
    or [CData]. *)

Inductive string_class : Type :=
| Plain
| CData
| Comment
| ProcessingInstruction
| Declaration
| Doctype
| Stylesheet
| Script
| TemplateString
| RubyTextString
| RubyParenthesisString.

Inductive node : Type :=
| NavigableString (cls : string_class) (text : str)
| Tag (name : str) (class_ : list str) (contents : list node).

(** The [BeautifulSoup] object: the top-level nodes of the page. *)
Definition soup := list node.

(** [tag.interesting_string_types]: the string classes that [get_text]
    collects below a tag of this name. *)
Definition interesting (name : str) (cls : string_class) : bool :=
  if str_eqb name (lit "script") then
    match cls with Script => true | _ => false end
  else if str_eqb name (lit "style") then
    match cls with Stylesheet => true | _ => false end
  else if str_eqb name (lit "template") then
    match cls with TemplateString => true | _ => false end
  else if str_eqb name (lit "rt") then
    match cls with RubyTextString => true | _ => false end
  else if str_eqb name (lit "rp") then
    match cls with RubyParenthesisString => true | _ => false end
  else
    match cls with Plain | CData => true | _ => false end.

(** The strings at and below a node, in document order. *)
Fixpoint all_strings (n : node) : list (string_class * str) :=
  match n with
  | NavigableString cls s => [(cls, s)]
  | Tag _ _ cs => flat_map all_strings cs
  end.

(** [elem.get_text()]: the strings below the element that have a class
    interesting for it, in document order, put together. *)
Definition get_text (n : node) : str :=
  match n with
  | NavigableString cls s =>
      match cls with Plain | CData => s | _ => [] end
  | Tag name _ cs =>
      concat (map snd (filter (fun cs => interesting name (fst cs))
                              (flat_map all_strings cs)))
  end.

(** The tags at and below a node, in document order. *)
Fixpoint tags_of (n : node) : list node :=
  match n with
  | NavigableString _ _ => []
  | Tag _ _ cs => n :: flat_map tags_of cs
  end.

Definition all_tags (sp : soup) : list node := flat_map tags_of sp.

(** The three shapes of CSS selector the program uses: [name],
    [.cls] and [[class*="sub"]]. *)
Inductive selector : Type :=
| TypeSel (name : str)
| ClassSel (cls : str)
| ClassContains (sub : str).

Definition matches (sel : selector) (n : node) : bool :=
  match n with
  | NavigableString _ _ => false
  | Tag name cls _ =>
      match sel with
      | TypeSel t => str_eqb name t
      | ClassSel c => existsb (str_eqb c) cls
      | ClassContains sub => contains sub (join [SPACE] cls) && truthy sub
      end
  end.

(** [soup.select(sel)]: every matching tag, in document order. *)
Definition select (sel : selector) (sp : soup) : list node :=
  filter (matches sel) (all_tags sp).

(** [soup.select_one(sel)]: the first matching tag, or [None]. *)
Definition select_one (sel : selector) (sp : soup) : option node :=
  hd_error (select sel sp).

(** [soup.find_all(name)] *)
Definition find_all (name : str) (sp : soup) : list node :=
  filter (matches (TypeSel name)) (all_tags sp).

(** [for element in soup(names): element.decompose()]: every tag with one
    of the names disappears from the tree with all it contains. *)
Fixpoint remove_tags (names : list str) (n : node) : list node :=
  match n with
  | NavigableString _ _ => [n]
  | Tag name cls cs =>
      if existsb (str_eqb name) names then []
      else [Tag name cls (flat_map (remove_tags names) cs)]
  end.

Definition decompose_all (names : list str) (sp : soup) : soup :=
  flat_map (remove_tags names) sp.

(** ** NewsExtractor *)

Record ParseResult : Type := { scheme : str; netloc : str }.

Record article : Type := { title : str; content : str; url : str }.

Definition title_selectors : list selector :=
  [ TypeSel (lit "h1");
    TypeSel (lit "title");
    ClassSel (lit "headline");
    ClassSel (lit "article-title");
    ClassContains (lit "title");
    ClassContains (lit "headline") ].

(** The [for selector in title_selectors] loop of [_extract_title], with
    its early [return]. *)
Fixpoint first_title (selectors : list selector) (sp : soup) : option str :=
  match selectors with
  | [] => None
  | selector :: rest =>
      match select_one selector sp with
      | Some title_elem =>
          if truthy (strip (get_text title_elem))
          then Some (strip (get_text title_elem))
          else first_title rest sp
      | None => first_title rest sp
      end
  end.

Definition _extract_title (sp : soup) : str :=
  match first_title title_selectors sp with
  | Some t => t
  | None => lit "Article Title"
  end.

Definition noise_tags : list str :=
  map lit ["script"; "style"; "nav"; "footer"; "header"; "aside"]%string.

Definition content_selectors : list selector :=
  [ TypeSel (lit "article");
    ClassSel (lit "article-content");
    ClassSel (lit "post-content");
    ClassSel (lit "entry-content");
    ClassContains (lit "article");
    ClassContains (lit "content");
    ClassSel (lit "story-body");
    TypeSel (lit "main") ].

(** One turn of the inner loop: [if len(text) > len(content): content = text]. *)
Definition keep_longer (content text : str) : str :=
  if length content <? length text then text else content.

(** The two nested loops, run over the texts in the order they are seen,
    starting from the empty [content]. *)
Definition scan_texts (texts : list str) : str := fold_left keep_longer texts [].

(** The texts the loops see: selector by selector, and for each selector
    its matches in document order. *)
Definition content_candidates (sp : soup) : list str :=
  flat_map (fun selector => map (fun elem => strip (get_text elem)) (select selector sp))
           content_selectors.

Definition selector_scan (sp : soup) : str := scan_texts (content_candidates sp).

(** [' '.join([p.get_text().strip() for p in paragraphs
               if len(p.get_text().strip()) > 20])] *)
Definition paragraph_texts (sp : soup) : str :=
  join [SPACE]
       (map (fun p => strip (get_text p))
            (filter (fun p => 20 <? length (strip (get_text p))) (find_all (lit "p") sp))).

(** [if len(content) < 100: content = ...paragraphs...] *)
Definition paragraph_fallback (sp : soup) (content : str) : str :=
  if length content <? 100 then paragraph_texts sp else content.

(** [re.sub(r'\s+', ' ', content).strip()] *)
Definition clean_up (content : str) : str := strip (re_sub_ws content).

(** The content before the final clean-up, on the page without its noise
    tags. *)
Definition raw_content (sp : soup) : str :=
  let sp' := decompose_all noise_tags sp in
  paragraph_fallback sp' (selector_scan sp').

Definition _extract_article_content (sp : soup) : str := clean_up (raw_content sp).

Section Extractor.

(** [urllib.parse.urlparse]: the components the program reads, or the
    [ValueError] it raises. *)
Variable urlparse : str -> result ParseResult.

(** What the web answers to a GET: the body of a successful response, or
    the exception of [requests.get] or of [raise_for_status]. *)
Variable web : str -> result (list Init.Byte.byte).

(** [BeautifulSoup(response.content, 'html.parser')] *)
Variable html_parser : list Init.Byte.byte -> result soup.

(** [all([result.scheme, result.netloc])], and [False] on any exception. *)
Definition _is_valid_url (url : str) : bool :=
  match urlparse url with
  | Ok result => forallb truthy [scheme result; netloc result]
  | Raise _ => false
  end.

Definition requests_get (url : str) : io (list Init.Byte.byte) :=
  perform (HttpGet url) (web url).

Definition extract_content (url : str) : io (option article * option str) :=
  try_except
    (if negb (_is_valid_url url) then ret (None, Some (lit "Invalid URL format"))
     else
       response_content <- requests_get url ;;
       sp <- lift (html_parser response_content) ;;
       let title := _extract_title sp in
       let content := _extract_article_content sp in
       if negb (truthy content)
       then ret (None, Some (lit "Could not extract article content"))
       else ret (Some {| title := title; content := content; url := url |}, None))
    (fun e =>
       match e with
       | RequestException msg => ret (None, Some (lit "Error fetching URL: " ++ msg))
       | Exception msg => ret (None, Some (lit "Error processing content: " ++ msg))
       end).

End Extractor.

(** ** NewsSummarizer *)

(** What [client.run] returns: a list of text fragments or one text. *)
Inductive output : Type :=
| OutList (fragments : list str)
| OutStr (text : str).

Definition MODEL : str := lit "ibm-granite/granite-3.3-8b-instruct".

Definition INDENT : str := lit "            ".

(** The f-string of [summarize]. *)
Definition build_prompt (title content : str) : str :=
  [NEWLINE]
  ++ INDENT ++ lit "Please provide a clear and concise summary of this news article. Focus on the key facts, main points, and important details."
  ++ [NEWLINE; NEWLINE]
  ++ INDENT ++ lit "Title: " ++ title
  ++ [NEWLINE; NEWLINE]
  ++ INDENT ++ lit "Article Content: " ++ slice_to 3000 content
  ++ [NEWLINE; NEWLINE]
  ++ INDENT ++ lit "Summary:".

(** Simple extractive summarisation. *)
Definition _fallback_summarize (content : str) : str :=
  let sentences := split (lit ". ") (replace [NEWLINE] [SPACE] content) in
  if 3 <=? length sentences
  then join (lit ". ") (firstn 3 sentences) ++ lit "."
  else if 500 <? length content then slice_to 500 content ++ lit "..." else content.

(** [" ".join([str(o).strip() for o in output if o]).strip()] for a list,
    [str(output).strip()] otherwise. *)
Definition render_output (o : output) : str :=
  match o with
  | OutList fragments => strip (join [SPACE] (map strip (filter truthy fragments)))
  | OutStr text => strip text
  end.

Section Summarizer.

(** What happens when [print] writes a line to the standard output:
    nothing to report, or the exception of the write (the stream is
    closed, the line cannot be encoded). *)
Variable stdout : str -> result unit.

(** [self.client]: [None], or a client whose [run] answers with an output
    or raises. *)
Variable client : option (str -> str -> result output).

Definition print (line : str) : io unit := perform (PrintLine line) (stdout line).

Definition summarize (title content : str) : io str :=
  try_except
    (match client with
     | None => ret (_fallback_summarize content)
     | Some run =>
         let prompt := build_prompt title content in
         out <- perform (ReplicateRun MODEL prompt) (run MODEL prompt) ;;
         ret (render_output out)
     end)
    (fun e =>
       _ <- print (lit "Replicate API error: " ++ exn_str e) ;;
       ret (_fallback_summarize content)).

End Summarizer.

(** ** Auxiliary notions used in the statements *)

(** The trimmed text of the candidate that [select_one] finds for a
    selector; empty when no element matches. *)
Definition candidate_text (sel : selector) (sp : soup) : str :=
  match select_one sel sp with
  | Some elem => strip (get_text elem)
  | None => []
  end.

(** Every whitespace character of the string is one space, and no two
    of them are adjacent; with [after_ws] the string may not start with
    whitespace either. *)
Fixpoint single_spaced (s : str) (after_ws : bool) : bool :=
  match s with
  | [] => true
  | c :: s' =>
      if isspace c
      then (c =? SPACE)%N && negb after_ws && single_spaced s' true
      else single_spaced s' false
  end.

(** The same, and the string may not end with whitespace. *)
Fixpoint normalized_from (s : str) (after_ws : bool) : bool :=
  match s with
  | [] => negb after_ws
  | c :: s' =>
      if isspace c
      then (c =? SPACE)%N && negb after_ws && normalized_from s' true
      else normalized_from s' false
  end.

(** Whitespace-normalised text: single spaces between other characters,
    none at either end. *)
Definition normalized (s : str) : bool :=
  match s with [] => true | _ :: _ => normalized_from s true end.

(** What [s.replace('\n', ' ')] does to one character. *)
Definition newline_to_space (c : char) : char :=
  if (c =? NEWLINE)%N then SPACE else c.

(** ** An instance of [urlparse]

    The scheme and netloc rules of [urllib.parse.urlsplit], to run the
    extractor on concrete URLs: leading control characters and spaces
    are dropped, tabs and line breaks are removed; a scheme is a letter
    followed by letters, digits, [+], [-] or [.] up to the first colon;
    a netloc follows [//] and ends before the first [/], [?] or [#]; an
    unbalanced bracket in the netloc raises [ValueError].  The checks of
    the text between brackets and of characters outside ASCII are left
    out: this instance is for URLs without them. *)

(** [url.lstrip(_WHATWG_C0_CONTROL_OR_SPACE)] *)
Fixpoint lstrip_c0 (s : str) : str :=
  match s with
  | [] => []
  | c :: s' => if (c <=? 32)%N then lstrip_c0 s' else s
  end.

(** Without the characters of [_UNSAFE_URL_BYTES_TO_REMOVE]. *)
Definition remove_unsafe (s : str) : str :=
  filter (fun c => negb ((c =? 9) || (c =? 13) || (c =? 10))%N) s.

Definition is_alpha (c : char) : bool :=
  ((65 <=? c) && (c <=? 90) || (97 <=? c) && (c <=? 122))%N.

Definition is_scheme_char (c : char) : bool :=
  (is_alpha c || (48 <=? c) && (c <=? 57) || (c =? 43) || (c =? 45) || (c =? 46))%N.

Definition lower (c : char) : char :=
  if ((65 <=? c) && (c <=? 90))%N then (c + 32)%N else c.

(** [url.partition(':')]: the text before the first colon and the text
    after it, or [None] when there is no colon. *)
Fixpoint partition_colon (s : str) : option (str * str) :=
  match s with
  | [] => None
  | c :: s' =>
      if (c =? 58)%N then Some ([], s')
      else match partition_colon s' with
           | Some (before, after) => Some (c :: before, after)
           | None => None
           end
  end.

Fixpoint until_delim (s : str) : str :=
  match s with
  | [] => []
  | c :: s' => if ((c =? 47) || (c =? 63) || (c =? 35))%N then [] else c :: until_delim s'
  end.

Definition has_char (c : char) (s : str) : bool := existsb (N.eqb c) s.

Definition urlsplit (url : str) : result ParseResult :=
  let url := remove_unsafe (lstrip_c0 url) in
  let (sch, rest) :=
    match partition_colon url with
    | Some (c :: before, after) =>
        if is_alpha c && forallb is_scheme_char (c :: before)
        then (map lower (c :: before), after)
        else ([], url)
    | _ => ([], url)
    end in
  if startswith (lit "//") rest
  then
    let loc := until_delim (skipn 2 rest) in
    if xorb (has_char 91%N loc) (has_char 93%N loc)
    then Raise (Exception (lit "Invalid IPv6 URL"))
    else Ok {| scheme := sch; netloc := loc |}
  else Ok {| scheme := sch; netloc := [] |}.

(** ** Sample pages *)

Definition text (s : string) : node := NavigableString Plain (lit s).

Definition elem (name : string) (classes : list string) (contents : list node) : node :=
  Tag (lit name) (map lit classes) contents.

(** [<h1></h1><h1 class="title">Hello</h1>] *)
Definition page_two_h1_classed : soup :=
  [ elem "h1" [] []; elem "h1" ["title"%string] [text "Hello"] ].

(** [<h1> </h1><h1>Second</h1>] *)
Definition page_two_h1 : soup :=
  [ elem "h1" [] [text " "]; elem "h1" [] [text "Second"] ].

(** [<html><head><title>Daily News</title></head>
     <body><h1>Storm</h1><nav><p>Home and all the other sections</p></nav></body></html>] *)
Definition page_without_body : soup :=
  [ elem "html" []
      [ elem "head" [] [ elem "title" [] [text "Daily News"] ];
        elem "body" []
          [ elem "h1" [] [text "Storm"];
            elem "nav" [] [ elem "p" [] [text "Home and all the other sections"] ] ] ] ].

(** [<div class="post-content"><p> Rain is expected
     over the  coast. </p><p>Short.</p><p>Winds will ease by the evening.</p></div>] *)
Definition page_paragraphs : soup :=
  [ elem "div" ["post-content"%string]
      [ elem "p" [] [NavigableString Plain (lit " Rain is expected" ++ [NEWLINE] ++ lit "over the  coast. ")];
        elem "p" [] [text "Short."];
        elem "p" [] [text "Winds will ease by the evening."] ] ].

(** A web that answers every GET with an empty body, and parsers that
    build a fixed page. *)
Definition web_ok (_ : str) : result (list Init.Byte.byte) := Ok [].

Definition parser_of (sp : soup) (_ : list Init.Byte.byte) : result soup := Ok sp.

(** A client whose [run] answers with the fragments ["a "; "b"]. *)
Definition run_fragments (_ _ : str) : result output :=
  Ok (OutList [lit "a "; lit "b"]).

(** A client whose [run] fails. *)
Definition run_failing (_ _ : str) : result output :=
  Raise (Exception (lit "401 Unauthorized")).


(** ** The endpoint [/api/summarize] *)

(** What [request.get_json()] can return. *)
Inductive json : Type :=
| JNull
| JBool (b : bool)
| JInt (n : Z)
| JFloat (repr : str)
| JStr (s : str)
| JList (items : list json)
| JDict (items : list (str * json)).

(** [type(v).__name__] *)
Definition type_name (v : json) : str :=
  match v with
  | JNull => lit "NoneType"
  | JBool _ => lit "bool"
  | JInt _ => lit "int"
  | JFloat _ => lit "float"
  | JStr _ => lit "str"
  | JList _ => lit "list"
  | JDict _ => lit "dict"
  end.

(** The [AttributeError] of a missing method. *)
Definition attribute_error (v : json) (attr : string) : exn :=
  Exception (lit "'" ++ type_name v ++ lit "' object has no attribute '"
             ++ lit attr ++ lit "'").

(** Lookup in a dict, given as its items. *)
Fixpoint dict_get (key : str) (items : list (str * json)) : option json :=
  match items with
  | [] => None
  | (k, v) :: rest => if str_eqb k key then Some v else dict_get key rest
  end.

(** [data.get('url', '')] *)
Definition get_url (data : json) : result json :=
  match data with
  | JDict items =>
      Ok (match dict_get (lit "url") items with Some v => v | None => JStr [] end)
  | _ => Raise (attribute_error data "get")
  end.

(** [v.strip()] *)
Definition value_strip (v : json) : result str :=
  match v with
  | JStr s => Ok (strip s)
  | _ => Raise (attribute_error v "strip")
  end.

(** The dict given to [jsonify]: an error, or a success with its fields. *)
Inductive payload : Type :=
| ErrorJson (error : str)
| SuccessJson (title summary url : str).

(** A response: the payload and the HTTP status. *)
Definition response : Type := payload * nat.

(** [demo_article().get_json()] *)
Definition demo_article : article :=
  {| title := lit "Breaking: Scientists Discover New Species in Ocean Depths";
     content := lit "Scientists have discovered a remarkable new species of deep-sea fish in the Mariana Trench, the deepest part of the world's oceans. The newly identified species, temporarily named Pseudoliparis marianensis, was found at depths exceeding 8,000 meters below sea level. The discovery was made during a recent expedition using advanced submersible technology. The fish exhibits unique adaptations to extreme pressure environments, including specialized proteins that allow its cells to function under crushing pressure. Researchers believe this discovery could provide insights into how life adapts to extreme conditions and may have implications for understanding life on other planets. The team plans to conduct further studies to better understand the species' behavior, diet, and ecosystem role.";
     url := lit "demo://sample-news-article" |}.

(** [if error:] on the second component of [extract_content]'s result. *)
Definition error_truthy (error : option str) : bool :=
  match error with Some e => truthy e | None => false end.

Section Api.

Variable urlparse : str -> result ParseResult.
Variable web : str -> result (list Init.Byte.byte).
Variable html_parser : list Init.Byte.byte -> result soup.

Variable stdout : str -> result unit.

(** [replicate_client], the client of the global [summarizer]. *)
Variable client : option (str -> str -> result output).

(** [request.get_json()]: the parsed body, or the exception it raises. *)
Variable get_json : result json.

Definition summarize_news : io response :=
  try_except
    (data <- lift get_json ;;
     v <- lift (get_url data) ;;
     url <- lift (value_strip v) ;;
     if negb (truthy url) then ret (ErrorJson (lit "URL is required"), 400)
     else if startswith (lit "demo://") url then
       match demo_article with
       | {| title := demo_title; content := demo_content; url := demo_url |} =>
           summary <- summarize stdout client demo_title demo_content ;;
           ret (SuccessJson demo_title summary demo_url, 200)
       end
     else
       r <- extract_content urlparse web html_parser url ;;
       let (article_data, error) := r in
       if error_truthy error
       then ret (ErrorJson (match error with Some e => e | None => [] end), 400)
       else
         match article_data with
         | Some {| title := article_title; content := article_content |} =>
             summary <- summarize stdout client article_title article_content ;;
             ret (SuccessJson article_title summary url, 200)
         | None => lift (Raise (Exception (lit "'NoneType' object is not subscriptable")))
         end)
    (fun e => ret (ErrorJson (lit "An error occurred: " ++ exn_str e), 500)).

End Api.

(** ** Further notions used in the statements *)

(** [not c.isspace()] *)
Definition nonspace (c : char) : bool := negb (isspace c).

(** The tag carries one of the names. *)
Definition named_in (names : list str) (n : node) : bool :=
  match n with
  | NavigableString _ _ => false
  | Tag name _ _ => existsb (str_eqb name) names
  end.

Definition is_http_get (ev : event) : bool :=
  match ev with HttpGet _ => true | _ => false end.

Definition is_replicate_run (ev : event) : bool :=
  match ev with ReplicateRun _ _ => true | _ => false end.

(** A body with the URL [u] under the key [url]. *)
Definition body_with_url (u : string) : result json :=
  Ok (JDict [(lit "url", JStr (lit u))]).

(** A web that is down. *)
Definition web_down (_ : str) : result (list Init.Byte.byte) :=
  Raise (RequestException (lit "Connection refused")).

(** A parser that fails. *)
Definition parser_failing (_ : list Init.Byte.byte) : result soup :=
  Raise (Exception (lit "parser error")).

(** A standard output that takes every line, and one that is closed. *)
Definition stdout_ok (_ : str) : result unit := Ok tt.

Definition stdout_closed (_ : str) : result unit :=
  Raise (Exception (lit "I/O operation on closed file.")).

(** A client that answers with one text. *)
Definition run_text (_ _ : str) : result output := Ok (OutStr (lit " A short summary. ")).

(** [<nav><div class="content">Menu</div></nav><article><p>Body</p><footer>Fine print</footer></article>] *)
Definition page_with_noise : soup :=
  [ elem "nav" [] [ elem "div" ["content"%string] [text "Menu"] ];
    elem "article" []
      [ elem "p" [] [text "Body"]; elem "footer" [] [text "Fine print"] ] ].

(** [<article>] with 120 letters [</article><p>] with 30 letters [</p>] *)
Definition page_long_article : soup :=
  [ Tag (lit "article") [] [NavigableString Plain (repeat 97%N 120)];
    Tag (lit "p") [] [NavigableString Plain (repeat 98%N 30)] ].

(** The URL that the endpoint reads from the body of the request: the
    trimmed string under the key [url], the empty string when the key is
    missing, and nothing when the body is not a dict, the value is not a
    string, or [get_json] raised. *)
Definition request_url (body : result json) : option str :=
  match body with
  | Ok (JDict items) =>
      match dict_get (lit "url") items with
      | None => Some []
      | Some (JStr s) => Some (strip s)
      | Some _ => None
      end
  | _ => None
  end.

(** The response of the endpoint once [summarize] has returned a summary
    or raised: the success with its fields, or the error of the outer
    [except] with status 500. *)
Definition summary_response (r : result str) (title url : str) : response :=
  match r with
  | Ok summary => (SuccessJson title summary url, 200)
  | Raise e => (ErrorJson (lit "An error occurred: " ++ exn_str e), 500)
  end.

(** A fragment or a text without any character that is not whitespace. *)
Definition blank (s : str) : bool := forallb isspace s.

Definition blank_output (o : output) : bool :=
  match o with
  | OutList fragments => forallb blank fragments
  | OutStr text => blank text
  end.

(** A client that answers with fragments of whitespace. *)
Definition run_blank (_ _ : str) : result output :=
  Ok (OutList [lit " "; []; [NEWLINE]]).

(** [<article><h1>Flood warning</h1><p>Stay away.</p></article>] *)
Definition page_short_article : soup :=
  [ elem "article" []
      [ elem "h1" [] [text "Flood warning"]; elem "p" [] [text "Stay away."] ] ].

(** Two blocks of 50 and of 200 letters, seen by the scan in both orders:
    [<div class="post-content">] 50 letters [</div><article>] 200 letters
    [</article>], where the scan meets the long block first, and
    [<article>] 50 letters [</article><div class="post-content">] 200
    letters [</div>], where it meets the short block first. *)
Definition page_long_first : soup :=
  [ Tag (lit "div") [lit "post-content"] [NavigableString Plain (repeat 97%N 50)];
    Tag (lit "article") [] [NavigableString Plain (repeat 98%N 200)] ].

Definition page_short_first : soup :=
  [ Tag (lit "article") [] [NavigableString Plain (repeat 97%N 50)];
    Tag (lit "div") [lit "post-content"] [NavigableString Plain (repeat 98%N 200)] ].

(** [<main>] 200 letters x [</main><article>] 200 letters y [</article>]:
    two blocks of one length; the scan meets the [article] first. *)
Definition page_tie : soup :=
  [ Tag (lit "main") [] [NavigableString Plain (repeat 120%N 200)];
    Tag (lit "article") [] [NavigableString Plain (repeat 121%N 200)] ].

(** * Properties *)

(** ** Strings *)

Lemma isspace_SPACE : isspace SPACE = true.
Proof. reflexivity. Qed.

Lemma truthy_true (s : str) : truthy s = true <-> s <> [].
Proof. destruct s; simpl; split; congruence. Qed.

Lemma truthy_false (s : str) : truthy s = false <-> s = [].
Proof. destruct s; simpl; split; congruence. Qed.

Lemma lstrip_head (s : str) c r : lstrip s = c :: r -> isspace c = false.
Proof.
  induction s as [|a s IH]; simpl; [discriminate|].
  destruct (isspace a) eqn:Ea; [exact IH|].
  intros H; injection H as -> _; exact Ea.
Qed.

Lemma lstrip_idem (s : str) : lstrip (lstrip s) = lstrip s.
Proof.
  induction s as [|a s IH]; simpl; [reflexivity|].
  destruct (isspace a) eqn:Ea; [exact IH|].
  simpl; rewrite Ea; reflexivity.
Qed.

Lemma lstrip_app (a b : str) :
  lstrip (a ++ b) = match lstrip a with [] => lstrip b | _ :: _ => lstrip a ++ b end.
Proof.
  induction a as [|c a IH]; simpl; [reflexivity|].
  destruct (isspace c); [exact IH | reflexivity].
Qed.

(** [rstrip] read from the left: a character stays unless it is whitespace
    with nothing but whitespace after it. *)
Lemma rstrip_cons (c : char) (s : str) :
  rstrip (c :: s) =
  match rstrip s with
  | [] => if isspace c then [] else [c]
  | _ :: _ => c :: rstrip s
  end.
Proof.
  unfold rstrip; simpl rev at 2.
  rewrite lstrip_app.
  destruct (lstrip (rev s)) as [|d l] eqn:E; simpl.
  - destruct (isspace c); reflexivity.
  - destruct (rev l ++ [d]) as [|x y] eqn:E2.
    + destruct (rev l); discriminate.
    + rewrite <- E2. rewrite rev_app_distr. reflexivity.
Qed.

Lemma rstrip_nil : rstrip [] = [].
Proof. reflexivity. Qed.

Lemma rstrip_idem (s : str) : rstrip (rstrip s) = rstrip s.
Proof. unfold rstrip. rewrite rev_involutive, lstrip_idem. reflexivity. Qed.

Lemma rstrip_last (s init : str) c : rstrip s = init ++ [c] -> isspace c = false.
Proof.
  unfold rstrip; intros H.
  apply (f_equal (@rev char)) in H.
  rewrite rev_involutive, rev_app_distr in H; simpl in H.
  exact (lstrip_head _ _ _ H).
Qed.

(** ** Splitting and joining *)

Lemma split_from_nonempty (sep s : str) (skip : nat) (cur : str) :
  split_from sep s skip cur <> [].
Proof.
  revert skip cur. induction s as [|c s IH]; intros skip cur; simpl; [discriminate|].
  destruct skip; [|apply IH].
  destruct (startswith sep (c :: s)); [discriminate|apply IH].
Qed.

Lemma join_cons (sep p : str) (rest : list str) :
  rest <> [] -> join sep (p :: rest) = p ++ sep ++ join sep rest.
Proof. destruct rest; [congruence|reflexivity]. Qed.

Lemma startswith_app (p s : str) :
  startswith p s = true -> exists rest, s = p ++ rest.
Proof.
  revert s. induction p as [|x p IH]; intros s H; [exists s; reflexivity|].
  destruct s as [|y s]; [discriminate|]. simpl in H.
  apply andb_prop in H as [Hxy H]. apply N.eqb_eq in Hxy. subst y.
  destruct (IH s H) as [rest ->]. exists rest. reflexivity.
Qed.

(** Passing over the rest of a separator. *)
Lemma split_from_skip (sep p s cur : str) :
  split_from sep (p ++ s) (length p) cur = split_from sep s 0 cur.
Proof.
  induction p as [|x p IH]; simpl; [reflexivity|exact IH].
Qed.

Lemma join_split_from (sep : str) (n : nat) :
  sep <> [] ->
  forall s cur, length s <= n -> join sep (split_from sep s 0 cur) = rev cur ++ s.
Proof.
  intros Hsep. induction n as [|n IH]; intros s cur Hn.
  - destruct s; [|simpl in Hn; lia]. simpl. rewrite app_nil_r. reflexivity.
  - destruct s as [|c s]; [simpl; rewrite app_nil_r; reflexivity|].
    simpl in Hn. cbn [split_from].
    destruct (startswith sep (c :: s)) eqn:E.
    + destruct (startswith_app _ _ E) as [rest Hrest].
      destruct sep as [|x sep']; [congruence|].
      simpl in Hrest. injection Hrest as Hc Hs. subst c s.
      replace (length (x :: sep') - 1) with (length sep') by (simpl; lia).
      rewrite split_from_skip, join_cons by apply split_from_nonempty.
      rewrite IH by (rewrite length_app in Hn; lia).
      reflexivity.
    + rewrite IH by lia. simpl. rewrite <- app_assoc. reflexivity.
Qed.

(** Joining the pieces of a split with the separator gives the string back. *)
Lemma join_split (sep s : str) : sep <> [] -> join sep (split sep s) = s.
Proof.
  intros Hsep. unfold split.
  rewrite (join_split_from sep (length s) Hsep s [] (Nat.le_refl _)). reflexivity.
Qed.

Lemma replace_char_from (a b : char) (s cur : str) :
  join [b] (split_from [a] s 0 cur)
  = rev cur ++ map (fun c => if (c =? a)%N then b else c) s.
Proof.
  revert cur. induction s as [|c s IH]; intros cur.
  - simpl. rewrite app_nil_r. reflexivity.
  - cbn [split_from startswith length Nat.sub map].
    rewrite andb_true_r, (N.eqb_sym a c).
    destruct (c =? a)%N.
    + rewrite join_cons by apply split_from_nonempty. rewrite IH. reflexivity.
    + rewrite IH. simpl. rewrite <- app_assoc. reflexivity.
Qed.

(** [content.replace('\n', ' ')] turns every newline into a space and
    leaves the other characters. *)
Lemma replace_newline (s : str) :
  replace [NEWLINE] [SPACE] s = map newline_to_space s.
Proof. unfold replace, split. rewrite replace_char_from. reflexivity. Qed.

(** ** Whitespace normalisation *)

Lemma single_spaced_weaken (s : str) : single_spaced s true = true -> single_spaced s false = true.
Proof.
  destruct s as [|c s]; simpl; [reflexivity|].
  destruct (isspace c); [|trivial].
  rewrite andb_false_r; discriminate.
Qed.

Lemma sub_ws_single_spaced (s : str) b : single_spaced (sub_ws_from s b) b = true.
Proof.
  revert b; induction s as [|c s IH]; intros b; simpl; [reflexivity|].
  destruct (isspace c) eqn:Ec.
  - destruct b; [apply IH|].
    change (single_spaced (SPACE :: sub_ws_from s true) false)
      with (single_spaced (sub_ws_from s true) true).
    apply IH.
  - simpl. rewrite Ec. apply IH.
Qed.

Lemma sub_ws_fixed (s : str) b : single_spaced s b = true -> sub_ws_from s b = s.
Proof.
  revert b; induction s as [|c s IH]; intros b; simpl; [reflexivity|].
  destruct (isspace c) eqn:Ec.
  - intros H. apply andb_prop in H as [H Hs]. apply andb_prop in H as [Hc Hb].
    apply N.eqb_eq in Hc. destruct b; [discriminate|].
    rewrite (IH true Hs), Hc. reflexivity.
  - intros H. rewrite (IH false H). reflexivity.
Qed.

Lemma lstrip_single_spaced (s : str) b :
  single_spaced s b = true -> single_spaced (lstrip s) true = true.
Proof.
  revert b; induction s as [|c s IH]; intros b; simpl; [reflexivity|].
  destruct (isspace c) eqn:Ec.
  - intros H. apply andb_prop in H as [_ Hs]. exact (IH true Hs).
  - intros H. simpl. rewrite Ec. exact H.
Qed.

Lemma lstrip_fixed (s : str) : single_spaced s true = true -> lstrip s = s.
Proof.
  destruct s as [|c s]; simpl; [reflexivity|].
  destruct (isspace c); [|reflexivity].
  rewrite andb_false_r; discriminate.
Qed.

Lemma rstrip_single_spaced (s : str) b :
  single_spaced s b = true -> single_spaced (rstrip s) b = true.
Proof.
  revert b; induction s as [|c s IH]; intros b H; [exact H|].
  rewrite rstrip_cons. simpl in H.
  destruct (isspace c) eqn:Ec.
  - apply andb_prop in H as [H Hs]. specialize (IH true Hs).
    destruct (rstrip s) as [|d r]; [reflexivity|].
    simpl single_spaced at 1. rewrite Ec, H. exact IH.
  - specialize (IH false H).
    destruct (rstrip s) as [|d r]; simpl single_spaced at 1; rewrite Ec; [reflexivity|exact IH].
Qed.

Lemma clean_up_single_spaced (s : str) : single_spaced (clean_up s) true = true.
Proof.
  unfold clean_up, strip, re_sub_ws.
  apply rstrip_single_spaced, (lstrip_single_spaced _ false), sub_ws_single_spaced.
Qed.

Lemma clean_up_fixed (s : str) :
  single_spaced s true = true -> rstrip s = s -> clean_up s = s.
Proof.
  intros Hs Hr. unfold clean_up, strip, re_sub_ws.
  rewrite (sub_ws_fixed _ _ (single_spaced_weaken _ Hs)), (lstrip_fixed _ Hs).
  exact Hr.
Qed.

Lemma normalized_from_spec (s : str) b :
  normalized_from s b = true -> s <> [] -> single_spaced s b = true /\ rstrip s = s.
Proof.
  revert b; induction s as [|c s IH]; intros b H Hne; [congruence|].
  rewrite rstrip_cons. simpl in *.
  destruct (isspace c) eqn:Ec.
  - apply andb_prop in H as [H Hs]. rewrite H.
    destruct s as [|d s]; [discriminate Hs|].
    destruct (IH true Hs) as [IH1 IH2]; [discriminate|].
    rewrite IH2. split; [exact IH1 | reflexivity].
  - destruct s as [|d s]; [split; reflexivity|].
    destruct (IH false H) as [IH1 IH2]; [discriminate|].
    rewrite IH2. split; [exact IH1 | reflexivity].
Qed.

Lemma normalized_fixed (s : str) : normalized s = true -> clean_up s = s.
Proof.
  destruct s as [|c s]; [reflexivity|]. unfold normalized. intros H.
  destruct (normalized_from_spec _ _ H) as [H1 H2]; [discriminate|].
  exact (clean_up_fixed _ H1 H2).
Qed.

Lemma single_spaced_rstrip_normalized (s : str) b :
  single_spaced s b = true -> rstrip s = s -> s <> [] -> normalized_from s b = true.
Proof.
  revert b; induction s as [|c s IH]; intros b H Hr Hne; [congruence|].
  rewrite rstrip_cons in Hr. simpl in *.
  destruct (isspace c) eqn:Ec.
  - apply andb_prop in H as [H Hs]. rewrite H.
    destruct (rstrip s) as [|d r] eqn:Er; [discriminate|].
    injection Hr as Hr. apply (IH true Hs); [congruence|].
    intros ->. discriminate.
  - destruct (rstrip s) as [|d r] eqn:Er.
    + injection Hr as <-. reflexivity.
    + injection Hr as Hr. apply (IH false H); [congruence|].
      intros ->. discriminate.
Qed.

Lemma clean_up_normalized (s : str) : normalized (clean_up s) = true.
Proof.
  unfold normalized. destruct (clean_up s) as [|c r] eqn:E; [reflexivity|].
  rewrite <- E. apply single_spaced_rstrip_normalized.
  - apply clean_up_single_spaced.
  - unfold clean_up, strip. apply rstrip_idem.
  - rewrite E; discriminate.
Qed.

(** C8.  Whitespace normalisation is idempotent: normalising twice gives
    what normalising once gives, normalised text is what it produces,
    and normalising a text that is already normalised (single spaces
    between other characters, none at the ends) returns it as it is. *)
Theorem clean_up_idempotent (s : str) :
  clean_up (clean_up s) = clean_up s
  /\ normalized (clean_up s) = true
  /\ (normalized s = true -> clean_up s = s).
Proof.
  split; [|split].
  - apply normalized_fixed, clean_up_normalized.
  - apply clean_up_normalized.
  - apply normalized_fixed.
Qed.

Lemma clean_up_idempotent_witness :
  normalized (lit "Rain over the coast") = true
  /\ clean_up (lit "Rain over the coast") = lit "Rain over the coast".
Proof.
  split; [reflexivity|].
  apply (proj2 (proj2 (clean_up_idempotent (lit "Rain over the coast")))).
  reflexivity.
Defined.

(** What [normalized] says, spelled out on the characters. *)

Lemma single_spaced_In (s : str) b c :
  single_spaced s b = true -> In c s -> isspace c = true -> c = SPACE.
Proof.
  revert b; induction s as [|a s IH]; intros b H Hin Hc; [contradiction|].
  simpl in H. destruct Hin as [->|Hin].
  - rewrite Hc in H. apply andb_prop in H as [H _]. apply andb_prop in H as [H _].
    apply N.eqb_eq in H. exact H.
  - destruct (isspace a).
    + apply andb_prop in H as [_ H]. exact (IH true H Hin Hc).
    + exact (IH false H Hin Hc).
Qed.

Lemma single_spaced_adjacent (l1 l2 : str) c d b :
  single_spaced (l1 ++ c :: d :: l2) b = true -> isspace c = true -> isspace d = false.
Proof.
  revert b; induction l1 as [|a l1 IH]; intros b H Hc; simpl in H.
  - rewrite Hc in H. apply andb_prop in H as [_ H].
    destruct (isspace d); [|reflexivity].
    rewrite andb_false_r in H. discriminate.
  - destruct (isspace a).
    + apply andb_prop in H as [_ H]. exact (IH true H Hc).
    + exact (IH false H Hc).
Qed.

Lemma single_spaced_head (r : str) c : single_spaced (c :: r) true = true -> isspace c = false.
Proof.
  simpl. destruct (isspace c); [|reflexivity].
  rewrite andb_false_r. discriminate.
Qed.

Lemma clean_up_last (s r : str) c : clean_up s = r ++ [c] -> isspace c = false.
Proof. unfold clean_up, strip. apply rstrip_last. Qed.

(** ** URL validation and the outcome of an extraction *)

Section ExtractorFacts.

Variable urlparse : str -> result ParseResult.
Variable web : str -> result (list Init.Byte.byte).
Variable html_parser : list Init.Byte.byte -> result soup.

Lemma is_valid_url_true (url : str) :
  _is_valid_url urlparse url = true <->
  exists r, urlparse url = Ok r /\ scheme r <> [] /\ netloc r <> [].
Proof.
  unfold _is_valid_url. split.
  - destruct (urlparse url) as [r|e]; [|discriminate].
    simpl. rewrite andb_true_r. intros H. apply andb_prop in H as [H1 H2].
    exists r. split; [reflexivity|]. split; apply truthy_true; assumption.
  - intros (r & -> & H1 & H2). simpl.
    apply truthy_true in H1, H2. rewrite H1, H2. reflexivity.
Qed.

Lemma extract_content_invalid (url : str) (t : trace) :
  _is_valid_url urlparse url = false ->
  extract_content urlparse web html_parser url t
  = (Ok (None, Some (lit "Invalid URL format")), t).
Proof.
  intros H. unfold extract_content, try_except. rewrite H. reflexivity.
Qed.

Lemma extract_content_fetched (url : str) (t : trace) body sp :
  _is_valid_url urlparse url = true ->
  web url = Ok body ->
  html_parser body = Ok sp ->
  extract_content urlparse web html_parser url t
  = (if negb (truthy (_extract_article_content sp))
     then Ok (None, Some (lit "Could not extract article content"))
     else Ok (Some {| title := _extract_title sp;
                      content := _extract_article_content sp;
                      url := url |}, None),
     t ++ [HttpGet url]).
Proof.
  intros Hv Hw Hp.
  unfold extract_content, try_except, bind, requests_get, perform, lift, ret.
  rewrite Hv, Hw, Hp. simpl.
  destruct (truthy (_extract_article_content sp)); reflexivity.
Qed.

(** A returned article is the one built on the last line of the [try]
    block: from a page that was fetched and parsed, with content that
    passed the emptiness test. *)
Lemma extract_content_success (url : str) (t t' : trace) art err :
  extract_content urlparse web html_parser url t = (Ok (Some art, err), t') ->
  exists body sp,
    web url = Ok body /\ html_parser body = Ok sp
    /\ _extract_article_content sp <> []
    /\ art = {| title := _extract_title sp;
                content := _extract_article_content sp;
                url := url |}.
Proof.
  unfold extract_content, try_except, bind, requests_get, perform, lift, ret.
  destruct (_is_valid_url urlparse url); simpl; [|discriminate].
  destruct (web url) as [body|[m|m]] eqn:Ew; [|discriminate..].
  destruct (html_parser body) as [sp|[m|m]] eqn:Ep; [|discriminate..].
  destruct (truthy (_extract_article_content sp)) eqn:E; simpl; [|discriminate].
  intros H. injection H as H _ _. exists body, sp.
  split; [reflexivity|]. split; [exact Ep|].
  split; [apply truthy_true; exact E | symmetry; exact H].
Qed.

End ExtractorFacts.

(** C4 (as the code has it).  A URL that does not decompose into both a
    non-empty scheme and a non-empty network location, also when
    [urlparse] raises on it, is answered with the failure reason
    "Invalid URL format", and the trace of effects is the one the call
    started with: no request was sent. *)
Theorem invalid_url_no_network
    (urlparse : str -> result ParseResult)
    (web : str -> result (list Init.Byte.byte))
    (html_parser : list Init.Byte.byte -> result soup)
    (url : str) (t : trace) :
  ~ (exists r, urlparse url = Ok r /\ scheme r <> [] /\ netloc r <> []) ->
  extract_content urlparse web html_parser url t
  = (Ok (None, Some (lit "Invalid URL format")), t).
Proof.
  intros H. apply extract_content_invalid.
  destruct (_is_valid_url urlparse url) eqn:E; [|reflexivity].
  apply is_valid_url_true in E. contradiction.
Qed.

Lemma not_a_url_undecomposed :
  ~ (exists r, urlsplit (lit "not a url") = Ok r /\ scheme r <> [] /\ netloc r <> []).
Proof.
  intros (r & H & Hs & _). vm_compute in H. injection H as <-. apply Hs. reflexivity.
Qed.

Lemma invalid_url_no_network_witness :
  ~ (exists r, urlsplit (lit "not a url") = Ok r /\ scheme r <> [] /\ netloc r <> [])
  /\ extract_content urlsplit web_ok (parser_of page_paragraphs) (lit "not a url") []
     = (Ok (None, Some (lit "Invalid URL format")), []).
Proof.
  assert (H : ~ (exists r, urlsplit (lit "not a url") = Ok r
                           /\ scheme r <> [] /\ netloc r <> [])).
  { intros (r & H & Hs & _). vm_compute in H. injection H as <-. apply Hs. reflexivity. }
  split; [exact H|].
  exact (invalid_url_no_network urlsplit web_ok (parser_of page_paragraphs)
           (lit "not a url") [] H).
Defined.

(** The reason returned for "not a url", which has neither scheme nor
    network location, is not the text "invalid URL format": the message
    of the code starts with a capital letter. *)
Lemma invalid_url_reason_is_capitalised :
  (~ exists r, urlsplit (lit "not a url") = Ok r /\ scheme r <> [] /\ netloc r <> [])
  /\ fst (extract_content urlsplit web_ok (parser_of page_paragraphs) (lit "not a url") [])
     <> Ok (None, Some (lit "invalid URL format")).
Proof.
  split; [exact not_a_url_undecomposed|].
  vm_compute. discriminate.
Qed.

(** C7 (as the code has it).  When a page was fetched and parsed and
    the extracted content is empty, the outcome is the failure reason
    "Could not extract article content", whatever title the page has;
    and the content of every article that [extract_content] returns is
    non-empty and normalised: its whitespace characters are spaces, no
    two of them are adjacent, and it neither starts nor ends with one. *)
Theorem empty_content_is_failure
    (urlparse : str -> result ParseResult)
    (web : str -> result (list Init.Byte.byte))
    (html_parser : list Init.Byte.byte -> result soup)
    (url : str) (t : trace) :
  (forall body sp,
      _is_valid_url urlparse url = true ->
      web url = Ok body ->
      html_parser body = Ok sp ->
      _extract_article_content sp = [] ->
      extract_content urlparse web html_parser url t
      = (Ok (None, Some (lit "Could not extract article content")), t ++ [HttpGet url]))
  /\ (forall art err t',
         extract_content urlparse web html_parser url t = (Ok (Some art, err), t') ->
         content art <> []
         /\ normalized (content art) = true
         /\ (forall c, In c (content art) -> isspace c = true -> c = SPACE)
         /\ (forall l1 c d l2, content art = l1 ++ c :: d :: l2 ->
                               isspace c = true -> isspace d = false)
         /\ (forall c r, content art = c :: r -> isspace c = false)
         /\ (forall r c, content art = r ++ [c] -> isspace c = false)).
Proof.
  split.
  - intros body sp Hv Hw Hp He.
    rewrite (extract_content_fetched urlparse web html_parser url t body sp Hv Hw Hp).
    rewrite He. reflexivity.
  - intros art err t' H.
    destruct (extract_content_success _ _ _ _ _ _ _ _ H) as (body & sp & _ & _ & Hne & ->).
    simpl content.
    pose proof (clean_up_single_spaced (raw_content sp)) as Hs.
    fold (_extract_article_content sp) in Hs.
    split; [exact Hne|].
    split; [apply clean_up_normalized|].
    split; [intros c; apply (single_spaced_In _ _ _ Hs)|].
    split.
    { intros l1 c d l2 E. rewrite E in Hs. exact (single_spaced_adjacent _ _ _ _ _ Hs). }
    split.
    { intros c r E. rewrite E in Hs. exact (single_spaced_head _ _ Hs). }
    intros r c E. exact (clean_up_last _ _ _ E).
Qed.

Lemma empty_content_is_failure_witness :
  _extract_title page_without_body = lit "Storm"
  /\ extract_content urlsplit web_ok (parser_of page_without_body)
       (lit "https://example.com/a") []
     = (Ok (None, Some (lit "Could not extract article content")),
        [HttpGet (lit "https://example.com/a")])
  /\ exists art,
       fst (extract_content urlsplit web_ok (parser_of page_paragraphs)
              (lit "https://example.com/a") []) = Ok (Some art, None)
       /\ content art <> [] /\ normalized (content art) = true.
Proof.
  split; [reflexivity|]. split.
  - apply (proj1 (empty_content_is_failure urlsplit web_ok (parser_of page_without_body)
                    (lit "https://example.com/a") []) [] page_without_body);
      reflexivity.
  - eexists. split; [reflexivity|].
    pose proof (proj2 (empty_content_is_failure urlsplit web_ok (parser_of page_paragraphs)
                         (lit "https://example.com/a") []) _ _ _ eq_refl)
      as (Hne & Hnorm & _).
    split; [exact Hne|exact Hnorm].
Defined.

(** On a page with a title and no body text the reason returned is not
    the text "could not extract article content": the message of the
    code starts with a capital letter. *)
Lemma empty_content_reason_is_capitalised :
  _is_valid_url urlsplit (lit "https://example.com/a") = true
  /\ _extract_article_content page_without_body = []
  /\ fst (extract_content urlsplit web_ok (parser_of page_without_body)
            (lit "https://example.com/a") [])
     <> Ok (None, Some (lit "could not extract article content")).
Proof.
  split; [reflexivity|]. split; [reflexivity|].
  vm_compute. discriminate.
Qed.

(** ** Title selection *)

Lemma first_title_cons (sel : selector) (rest : list selector) (sp : soup) :
  first_title (sel :: rest) sp =
  if truthy (candidate_text sel sp) then Some (candidate_text sel sp)
  else first_title rest sp.
Proof.
  unfold candidate_text. simpl.
  destruct (select_one sel sp); reflexivity.
Qed.

Lemma first_title_spec (sels : list selector) (sp : soup) :
  (exists before sel after,
      sels = before ++ sel :: after
      /\ (forall s, In s before -> candidate_text s sp = [])
      /\ candidate_text sel sp <> []
      /\ first_title sels sp = Some (candidate_text sel sp))
  \/ ((forall s, In s sels -> candidate_text s sp = []) /\ first_title sels sp = None).
Proof.
  induction sels as [|sel rest IH].
  - right. split; [intros s []|reflexivity].
  - rewrite first_title_cons.
    destruct (truthy (candidate_text sel sp)) eqn:E.
    + left. exists [], sel, rest. apply truthy_true in E.
      repeat split; [intros s []|exact E].
    + apply truthy_false in E.
      destruct IH as [(before & s0 & after & -> & Hb & Hne & Hf)|[Hall Hf]].
      * left. exists (sel :: before), s0, after.
        repeat split; [|exact Hne|exact Hf].
        intros s [<-|Hin]; [exact E|exact (Hb s Hin)].
      * right. split; [|exact Hf].
        intros s [<-|Hin]; [exact E|exact (Hall s Hin)].
Qed.

(** A selector whose candidate has no text is passed over. *)
Lemma first_title_skip (before after : list selector) (sel : selector) (sp : soup) :
  candidate_text sel sp = [] ->
  first_title (before ++ sel :: after) sp = first_title (before ++ after) sp.
Proof.
  intros E. induction before as [|s before IH]; simpl app.
  - rewrite first_title_cons, E. reflexivity.
  - rewrite !first_title_cons, IH. reflexivity.
Qed.

(** The loop looks at a page only through [select_one]. *)
Lemma first_title_ext (sels : list selector) (sp sp' : soup) :
  (forall sel, In sel sels -> select_one sel sp' = select_one sel sp) ->
  first_title sels sp' = first_title sels sp.
Proof.
  induction sels as [|sel rest IH]; intros H; [reflexivity|].
  simpl. rewrite (H sel (or_introl eq_refl)), IH; [reflexivity|].
  intros s Hs. apply H. right. exact Hs.
Qed.

Lemma candidate_text_nonempty (sel : selector) (sp : soup) :
  candidate_text sel sp <> [] ->
  exists e, select_one sel sp = Some e /\ candidate_text sel sp = strip (get_text e).
Proof.
  unfold candidate_text. destruct (select_one sel sp) as [e|]; [|congruence].
  intros _. exists e. split; reflexivity.
Qed.

(** C5.  The selectors are tried in the order [h1], [title], [.headline],
    [.article-title], [[class*="title"]], [[class*="headline"]]; the
    title is the trimmed text of the first of them whose candidate has
    text left after trimming, and "Article Title" when none has. *)
Theorem extract_title_first_candidate (sp : soup) :
  title_selectors
  = [ TypeSel (lit "h1"); TypeSel (lit "title"); ClassSel (lit "headline");
      ClassSel (lit "article-title"); ClassContains (lit "title");
      ClassContains (lit "headline") ]
  /\ ((exists before sel after title_elem,
          title_selectors = before ++ sel :: after
          /\ (forall s, In s before -> candidate_text s sp = [])
          /\ select_one sel sp = Some title_elem
          /\ strip (get_text title_elem) <> []
          /\ _extract_title sp = strip (get_text title_elem))
      \/ ((forall s, In s title_selectors -> candidate_text s sp = [])
          /\ _extract_title sp = lit "Article Title")).
Proof.
  split; [reflexivity|].
  unfold _extract_title.
  destruct (first_title_spec title_selectors sp)
    as [(before & sel & after & E & Hb & Hne & Hf)|[Hall Hf]]; rewrite Hf.
  - left. destruct (candidate_text_nonempty _ _ Hne) as (e & He & Ht).
    exists before, sel, after, e. rewrite <- Ht.
    repeat split; assumption.
  - right. split; [exact Hall|reflexivity].
Qed.

Lemma extract_title_first_candidate_witness :
  _extract_title page_without_body = lit "Storm"
  /\ ((exists before sel after title_elem,
          title_selectors = before ++ sel :: after
          /\ (forall s, In s before -> candidate_text s page_without_body = [])
          /\ select_one sel page_without_body = Some title_elem
          /\ strip (get_text title_elem) <> []
          /\ _extract_title page_without_body = strip (get_text title_elem))
      \/ ((forall s, In s title_selectors -> candidate_text s page_without_body = [])
          /\ _extract_title page_without_body = lit "Article Title")).
Proof.
  split; [reflexivity|].
  exact (proj2 (extract_title_first_candidate page_without_body)).
Defined.

(** C10 (as the code has it).  The title depends on the page only
    through the first match of each selector; a selector whose first
    match has no text after trimming is passed over, whatever its later
    matches are; so when the first [h1] is empty the title is the text
    of the first match of one of the later selectors, or the placeholder.
    On [<h1> </h1><h1>Second</h1>] it is the placeholder. *)
Theorem extract_title_first_match_only (sp : soup) :
  (forall sp',
      (forall sel, In sel title_selectors -> select_one sel sp' = select_one sel sp) ->
      _extract_title sp' = _extract_title sp)
  /\ (forall before sel after,
         title_selectors = before ++ sel :: after ->
         candidate_text sel sp = [] ->
         first_title title_selectors sp = first_title (before ++ after) sp)
  /\ (forall first,
         select_one (TypeSel (lit "h1")) sp = Some first ->
         strip (get_text first) = [] ->
         _extract_title sp = lit "Article Title"
         \/ exists sel e,
             In sel (tl title_selectors)
             /\ select_one sel sp = Some e
             /\ _extract_title sp = strip (get_text e))
  /\ _extract_title page_two_h1 = lit "Article Title".
Proof.
  split; [|split; [|split]].
  - intros sp' H. unfold _extract_title. rewrite (first_title_ext _ _ _ H). reflexivity.
  - intros before sel after -> E. apply first_title_skip. exact E.
  - intros first Hsel Hempty.
    assert (E : candidate_text (TypeSel (lit "h1")) sp = []).
    { unfold candidate_text. rewrite Hsel. exact Hempty. }
    unfold _extract_title.
    pose proof (first_title_skip [] (tl title_selectors) _ sp E) as Hskip.
    change (first_title title_selectors sp = first_title (tl title_selectors) sp) in Hskip.
    rewrite Hskip.
    destruct (first_title_spec (tl title_selectors) sp)
      as [(before & sel & after & Eq & Hb & Hne & Hf)|[Hall Hf]]; rewrite Hf.
    + right. destruct (candidate_text_nonempty _ _ Hne) as (e & He & Ht).
      exists sel, e. rewrite Eq. repeat split; [|exact He|exact Ht].
      apply in_or_app. right. left. reflexivity.
    + left. reflexivity.
  - reflexivity.
Qed.

Lemma extract_title_first_match_only_witness :
  select_one (TypeSel (lit "h1")) page_two_h1_classed = Some (elem "h1" [] [])
  /\ strip (get_text (elem "h1" [] [])) = []
  /\ (_extract_title page_two_h1_classed = lit "Article Title"
      \/ exists sel e,
          In sel (tl title_selectors)
          /\ select_one sel page_two_h1_classed = Some e
          /\ _extract_title page_two_h1_classed = strip (get_text e)).
Proof.
  split; [reflexivity|]. split; [reflexivity|].
  apply (proj1 (proj2 (proj2 (extract_title_first_match_only page_two_h1_classed)))
           (elem "h1" [] []));
    reflexivity.
Defined.

(** On [<h1></h1><h1 class="title">Hello</h1>] the first [h1] is empty,
    the second is not, and the title is the text of the second: it is
    the first match of [[class*="title"]]. *)
Lemma second_h1_text_is_title :
  exists first second,
    select (TypeSel (lit "h1")) page_two_h1_classed = [first; second]
    /\ strip (get_text first) = []
    /\ strip (get_text second) <> []
    /\ _extract_title page_two_h1_classed = strip (get_text second).
Proof.
  exists (elem "h1" [] []), (elem "h1" ["title"%string] [text "Hello"]).
  split; [reflexivity|]. split; [reflexivity|]. split; [|reflexivity].
  vm_compute. discriminate.
Qed.

(** ** Content selection *)

Lemma keep_longer_cases (content text : str) :
  (length content < length text /\ keep_longer content text = text)
  \/ (length text <= length content /\ keep_longer content text = content).
Proof.
  unfold keep_longer. destruct (length content <? length text) eqn:E.
  - left. apply Nat.ltb_lt in E. split; [exact E|reflexivity].
  - right. apply Nat.ltb_ge in E. split; [exact E|reflexivity].
Qed.

Lemma keep_longer_lt (content text : str) :
  length content < length text -> keep_longer content text = text.
Proof.
  intros H. destruct (keep_longer_cases content text) as [[_ E]|[H' _]]; [exact E|lia].
Qed.

Lemma keep_longer_ge (content text : str) :
  length text <= length content -> keep_longer content text = content.
Proof.
  intros H. destruct (keep_longer_cases content text) as [[H' _]|[_ E]]; [lia|exact E].
Qed.

(** The loop started with [content = acc]: it ends with [acc] itself, which
    no text exceeds, or with the first text that is longer than [acc] and
    than everything before it, and that nothing after it exceeds. *)
Lemma scan_from_spec (texts : list str) (acc : str) :
  (fold_left keep_longer texts acc = acc
   /\ forall t, In t texts -> length t <= length acc)
  \/ (exists seen later,
         texts = seen ++ fold_left keep_longer texts acc :: later
         /\ length acc < length (fold_left keep_longer texts acc)
         /\ (forall t, In t seen -> length t < length (fold_left keep_longer texts acc))
         /\ (forall t, In t later -> length t <= length (fold_left keep_longer texts acc))).
Proof.
  revert acc. induction texts as [|a texts IH]; intros acc; simpl.
  - left. split; [reflexivity|intros t []].
  - destruct (keep_longer_cases acc a) as [[Hlt ->]|[Hle ->]].
    + right. destruct (IH a) as [[E Hall]|(seen & later & E & Hgt & Hs & Hl)].
      * exists [], texts. rewrite E. simpl.
        repeat split; [exact Hlt|intros t []|exact Hall].
      * exists (a :: seen), later. simpl. rewrite <- E.
        repeat split; [lia| |exact Hl].
        intros t [<-|Hin]; [exact Hgt|exact (Hs t Hin)].
    + destruct (IH acc) as [[E Hall]|(seen & later & E & Hgt & Hs & Hl)].
      * left. split; [exact E|].
        intros t [<-|Hin]; [exact Hle|exact (Hall t Hin)].
      * right. exists (a :: seen), later. simpl. rewrite <- E.
        repeat split; [exact Hgt| |exact Hl].
        intros t [<-|Hin]; [lia|exact (Hs t Hin)].
Qed.

Lemma scan_texts_upper (texts : list str) (t : str) :
  In t texts -> length t <= length (scan_texts texts).
Proof.
  unfold scan_texts. intros Hin.
  destruct (scan_from_spec texts []) as [[E Hall]|(seen & later & E & _ & Hs & Hl)].
  - rewrite E. exact (Hall t Hin).
  - rewrite E in Hin at 1. apply in_app_or in Hin as [Hin|[<-|Hin]].
    + apply Nat.lt_le_incl, Hs, Hin.
    + apply Nat.le_refl.
    + apply Hl, Hin.
Qed.

Lemma scan_texts_first_longest (texts : list str) :
  (scan_texts texts = [] /\ forall t, In t texts -> t = [])
  \/ (exists seen later,
         texts = seen ++ scan_texts texts :: later
         /\ forall t, In t seen -> length t < length (scan_texts texts)).
Proof.
  unfold scan_texts.
  destruct (scan_from_spec texts []) as [[E Hall]|(seen & later & E & _ & Hs & _)].
  - left. split; [exact E|].
    intros t Hin. specialize (Hall t Hin). destruct t; [reflexivity|simpl in Hall; lia].
  - right. exists seen, later. split; [exact E|exact Hs].
Qed.

Lemma scan_texts_member (texts : list str) :
  scan_texts texts = [] \/ In (scan_texts texts) texts.
Proof.
  destruct (scan_texts_first_longest texts) as [[E _]|(seen & later & E & _)].
  - left. exact E.
  - right. rewrite E at 2. apply in_or_app. right. left. reflexivity.
Qed.

Lemma scan_texts_perm_length (texts texts' : list str) :
  Permutation texts texts' ->
  length (scan_texts texts') <= length (scan_texts texts).
Proof.
  intros HP. destruct (scan_texts_member texts') as [E|Hin].
  - rewrite E. apply Nat.le_0_l.
  - apply scan_texts_upper. apply (Permutation_in _ (Permutation_sym HP)). exact Hin.
Qed.

(** The candidates are the trimmed texts of the elements that the
    selectors of the list match. *)
Lemma content_candidates_In (sp : soup) (t : str) :
  In t (content_candidates sp) <->
  exists selector elem,
    In selector content_selectors /\ In elem (select selector sp)
    /\ t = strip (get_text elem).
Proof.
  unfold content_candidates. rewrite in_flat_map. split.
  - intros (selector & Hs & Ht). apply in_map_iff in Ht as (elem & <- & He).
    exists selector, elem. repeat split; assumption.
  - intros (selector & elem & Hs & He & ->). exists selector. split; [exact Hs|].
    apply in_map_iff. exists elem. split; [reflexivity|exact He].
Qed.

(** C1.  The selector scan reads the trimmed text of every element
    matched by a selector of the list [article], [.article-content],
    [.post-content], [.entry-content], [[class*="article"]],
    [[class*="content"]], [.story-body], [main], selector by selector
    and match by match.  It ends with a text that none of these
    elements exceeds in length and that is the trimmed text of the first
    of them, in the order of the scan, to have that length (or with the
    empty text when all are empty); seeing the candidates in another
    order, or taking the selectors in another order, gives a text of the
    same length, and the same text when only one candidate has the
    greatest length; a block of 200 characters wins over one of 50 in
    either order. *)
Theorem selector_scan_longest (sp : soup) :
  content_selectors
  = [ TypeSel (lit "article"); ClassSel (lit "article-content");
      ClassSel (lit "post-content"); ClassSel (lit "entry-content");
      ClassContains (lit "article"); ClassContains (lit "content");
      ClassSel (lit "story-body"); TypeSel (lit "main") ]
  /\ content_candidates sp
     = flat_map (fun selector => map (fun elem => strip (get_text elem)) (select selector sp))
         content_selectors
  /\ (forall selector elem,
         In selector content_selectors -> In elem (select selector sp) ->
         length (strip (get_text elem)) <= length (selector_scan sp))
  /\ ((selector_scan sp = []
       /\ forall selector elem,
           In selector content_selectors -> In elem (select selector sp) ->
           strip (get_text elem) = [])
      \/ (exists selector elem seen later,
             In selector content_selectors /\ In elem (select selector sp)
             /\ selector_scan sp = strip (get_text elem)
             /\ content_candidates sp = seen ++ strip (get_text elem) :: later
             /\ forall t, In t seen -> length t < length (strip (get_text elem))))
  /\ (forall t, In t (content_candidates sp) -> length t <= length (selector_scan sp))
  /\ ((selector_scan sp = [] /\ forall t, In t (content_candidates sp) -> t = [])
      \/ (exists seen later,
             content_candidates sp = seen ++ selector_scan sp :: later
             /\ forall t, In t seen -> length t < length (selector_scan sp)))
  /\ (forall texts',
         Permutation (content_candidates sp) texts' ->
         length (scan_texts texts') = length (selector_scan sp))
  /\ (forall texts',
         Permutation (content_candidates sp) texts' ->
         (forall t, In t (content_candidates sp) ->
                    length t = length (selector_scan sp) -> t = selector_scan sp) ->
         scan_texts texts' = selector_scan sp)
  /\ (forall selectors',
         Permutation content_selectors selectors' ->
         length (scan_texts
                   (flat_map (fun selector =>
                                map (fun elem => strip (get_text elem)) (select selector sp))
                             selectors'))
         = length (selector_scan sp))
  /\ (forall a b : str,
         length a = 50 -> length b = 200 ->
         scan_texts [a; b] = b /\ scan_texts [b; a] = b).
Proof.
  split; [reflexivity|]. split; [reflexivity|].
  unfold selector_scan.
  assert (Hlen : forall texts', Permutation (content_candidates sp) texts' ->
                   length (scan_texts texts') = length (scan_texts (content_candidates sp))).
  { intros texts' HP. apply Nat.le_antisymm.
    - apply scan_texts_perm_length, HP.
    - apply scan_texts_perm_length, Permutation_sym, HP. }
  split.
  { intros selector elem Hs He. apply scan_texts_upper.
    apply content_candidates_In. exists selector, elem. repeat split; assumption. }
  split.
  { destruct (scan_texts_first_longest (content_candidates sp))
      as [[E Hall]|(seen & later & E & Hseen)].
    - left. split; [exact E|]. intros selector elem Hs He. apply Hall.
      apply content_candidates_In. exists selector, elem. repeat split; assumption.
    - right.
      assert (Hin : In (scan_texts (content_candidates sp)) (content_candidates sp)).
      { rewrite E at 2. apply in_or_app. right. left. reflexivity. }
      apply content_candidates_In in Hin as (selector & elem & Hs & He & Ht).
      exists selector, elem, seen, later. rewrite <- Ht.
      repeat split; assumption. }
  split; [apply scan_texts_upper|].
  split; [apply scan_texts_first_longest|].
  split; [exact Hlen|].
  split.
  { intros texts' HP Huniq. specialize (Hlen texts' HP).
    destruct (scan_texts_member texts') as [E|Hin].
    + rewrite E in *. simpl in Hlen.
      destruct (scan_texts (content_candidates sp)); [reflexivity|discriminate].
    + apply Huniq; [|exact Hlen].
      apply (Permutation_in _ (Permutation_sym HP)). exact Hin. }
  split.
  { intros selectors' HP. apply Hlen. unfold content_candidates.
    apply Permutation_flat_map. exact HP. }
  intros a b Ha Hb. unfold scan_texts. simpl.
  rewrite (keep_longer_lt [] a), (keep_longer_lt a b), (keep_longer_lt [] b),
    (keep_longer_ge b a) by (simpl; lia).
  split; reflexivity.
Qed.

Lemma selector_scan_longest_witness :
  In (Tag (lit "article") [] [NavigableString Plain (repeat 98%N 200)])
     (select (TypeSel (lit "article")) page_long_first)
  /\ In (Tag (lit "div") [lit "post-content"] [NavigableString Plain (repeat 98%N 200)])
        (select (ClassSel (lit "post-content")) page_short_first)
  /\ 200 <= length (selector_scan page_long_first)
  /\ 200 <= length (selector_scan page_short_first)
  /\ content_candidates page_long_first
     = [repeat 98%N 200; repeat 97%N 50; repeat 97%N 50]
  /\ content_candidates page_short_first
     = [repeat 97%N 50; repeat 98%N 200; repeat 98%N 200]
  /\ selector_scan page_long_first = repeat 98%N 200
  /\ selector_scan page_short_first = repeat 98%N 200
  /\ content_candidates page_tie = [repeat 121%N 200; repeat 120%N 200]
  /\ selector_scan page_tie = repeat 121%N 200
  /\ scan_texts [repeat 97%N 50; repeat 98%N 200] = repeat 98%N 200
  /\ scan_texts [repeat 98%N 200; repeat 97%N 50] = repeat 98%N 200.
Proof.
  assert (H1 : In (Tag (lit "article") [] [NavigableString Plain (repeat 98%N 200)])
                  (select (TypeSel (lit "article")) page_long_first)).
  { left. reflexivity. }
  assert (H2 : In (Tag (lit "div") [lit "post-content"]
                     [NavigableString Plain (repeat 98%N 200)])
                  (select (ClassSel (lit "post-content")) page_short_first)).
  { left. reflexivity. }
  split; [exact H1|]. split; [exact H2|].
  split.
  { exact (proj1 (proj2 (proj2 (selector_scan_longest page_long_first)))
             (TypeSel (lit "article")) _ (or_introl eq_refl) H1). }
  split.
  { exact (proj1 (proj2 (proj2 (selector_scan_longest page_short_first)))
             (ClassSel (lit "post-content")) _
             (or_intror (or_intror (or_introl eq_refl))) H2). }
  split; [vm_compute; reflexivity|]. split; [vm_compute; reflexivity|].
  split; [vm_compute; reflexivity|]. split; [vm_compute; reflexivity|].
  split; [vm_compute; reflexivity|]. split; [vm_compute; reflexivity|].
  apply (proj2 (proj2 (proj2 (proj2 (proj2 (proj2 (proj2 (proj2 (proj2
           (selector_scan_longest page_paragraphs)))))))))
           (repeat 97%N 50) (repeat 98%N 200));
    reflexivity.
Defined.

Lemma join_contains (sep x : str) (parts : list str) :
  In x parts -> exists before after, join sep parts = before ++ x ++ after.
Proof.
  induction parts as [|p rest IH]; intros Hin; [contradiction|].
  destruct rest as [|q rest].
  - destruct Hin as [<-|[]]. exists [], []. simpl. rewrite app_nil_r. reflexivity.
  - rewrite join_cons by discriminate. destruct Hin as [<-|Hin].
    + exists [], (sep ++ join sep (q :: rest)). reflexivity.
    + destruct (IH Hin) as (before & after & E). rewrite E.
      exists (p ++ sep ++ before), after. rewrite <- !app_assoc. reflexivity.
Qed.

(** C6.  When the text kept by the selector scan has fewer than 100
    characters, the content before the final clean-up is instead made of
    the trimmed texts of the [p] elements of the page (without its noise
    tags) whose trimmed text has more than 20 characters, in document
    order, with one space between them; each such paragraph is part of
    it; the returned content is its clean-up. *)
Theorem paragraph_fallback_under_100 (sp : soup) :
  length (selector_scan (decompose_all noise_tags sp)) < 100 ->
  raw_content sp
  = join [SPACE]
      (map (fun p => strip (get_text p))
           (filter (fun p => 20 <? length (strip (get_text p)))
                   (filter (matches (TypeSel (lit "p")))
                           (all_tags (decompose_all noise_tags sp)))))
  /\ (forall p,
         In p (all_tags (decompose_all noise_tags sp)) ->
         matches (TypeSel (lit "p")) p = true ->
         20 < length (strip (get_text p)) ->
         exists before after, raw_content sp = before ++ strip (get_text p) ++ after)
  /\ _extract_article_content sp = clean_up (raw_content sp).
Proof.
  intros H.
  assert (E : raw_content sp
              = join [SPACE]
                  (map (fun p => strip (get_text p))
                     (filter (fun p => 20 <? length (strip (get_text p)))
                        (filter (matches (TypeSel (lit "p")))
                           (all_tags (decompose_all noise_tags sp)))))).
  { unfold raw_content, paragraph_fallback.
    apply Nat.ltb_lt in H. rewrite H. reflexivity. }
  split; [exact E|]. split; [|reflexivity].
  intros p Hin Hp Hlen. rewrite E. apply join_contains.
  apply (in_map (fun p => strip (get_text p))).
  apply filter_In. split; [|apply Nat.ltb_lt; exact Hlen].
  apply filter_In. split; assumption.
Qed.

Lemma paragraph_fallback_under_100_witness :
  length (selector_scan (decompose_all noise_tags page_paragraphs)) < 100
  /\ raw_content page_paragraphs
     = lit "Rain is expected" ++ [NEWLINE]
       ++ lit "over the  coast. Winds will ease by the evening."
  /\ _extract_article_content page_paragraphs
     = lit "Rain is expected over the coast. Winds will ease by the evening.".
Proof.
  assert (H : length (selector_scan (decompose_all noise_tags page_paragraphs)) < 100).
  { vm_compute. lia. }
  split; [exact H|].
  destruct (paragraph_fallback_under_100 page_paragraphs H) as (E1 & _ & E2).
  split; [rewrite E1 | rewrite E2, E1]; reflexivity.
Defined.

(** ** Summarisation *)

Lemma app_nonempty_r (a b : str) : b <> [] -> a ++ b <> [].
Proof. intros Hb H. apply app_eq_nil in H as [_ H]. exact (Hb H). Qed.

Lemma fallback_nonempty (content : str) : content <> [] -> _fallback_summarize content <> [].
Proof.
  intros H. unfold _fallback_summarize.
  destruct (3 <=? _); [apply app_nonempty_r; discriminate|].
  destruct (500 <? _); [apply app_nonempty_r; discriminate|exact H].
Qed.

(** C2.  The fallback summary: newlines become spaces and the text is
    split at every ". "; three units or more give the first three joined
    with ". " and a final period; fewer give the first 500 characters and
    "..." for a content of more than 500 characters, and the content
    itself otherwise. *)
Theorem fallback_summarize_spec (content : str) :
  replace [NEWLINE] [SPACE] content = map newline_to_space content
  /\ join (lit ". ") (split (lit ". ") (map newline_to_space content))
     = map newline_to_space content
  /\ (3 <= length (split (lit ". ") (map newline_to_space content)) ->
      _fallback_summarize content
      = join (lit ". ") (firstn 3 (split (lit ". ") (map newline_to_space content)))
        ++ lit ".")
  /\ (length (split (lit ". ") (map newline_to_space content)) < 3 ->
      500 < length content ->
      _fallback_summarize content = firstn 500 content ++ lit "...")
  /\ (length (split (lit ". ") (map newline_to_space content)) < 3 ->
      length content <= 500 ->
      _fallback_summarize content = content)
  /\ _fallback_summarize (lit "A is true. B is true. C is true. D is true.")
     = lit "A is true. B is true. C is true.".
Proof.
  split; [apply replace_newline|].
  split; [apply join_split; discriminate|].
  unfold _fallback_summarize, slice_to. rewrite replace_newline.
  split; [|split; [|split]].
  - intros H. apply Nat.leb_le in H. rewrite H. reflexivity.
  - intros H1 H2. apply Nat.leb_gt in H1. apply Nat.ltb_lt in H2.
    rewrite H1, H2. reflexivity.
  - intros H1 H2. apply Nat.leb_gt in H1. apply Nat.ltb_ge in H2.
    rewrite H1, H2. reflexivity.
  - reflexivity.
Qed.

Lemma fallback_summarize_spec_witness :
  3 <= length (split (lit ". ")
                 (map newline_to_space (lit "Rain today. Wind tomorrow. Sun after. More later.")))
  /\ _fallback_summarize (lit "Rain today. Wind tomorrow. Sun after. More later.")
     = lit "Rain today. Wind tomorrow. Sun after."
  /\ _fallback_summarize (lit "One unit only") = lit "One unit only".
Proof.
  split; [vm_compute; lia|].
  split.
  - rewrite (proj1 (proj2 (proj2 (fallback_summarize_spec
               (lit "Rain today. Wind tomorrow. Sun after. More later."))))).
    + reflexivity.
    + vm_compute; lia.
  - apply (proj1 (proj2 (proj2 (proj2 (proj2 (fallback_summarize_spec
               (lit "One unit only"))))))); vm_compute; lia.
Defined.

Section SummarizeFacts.

Variable stdout : str -> result unit.

Lemma summarize_no_client (title content : str) (t : trace) :
  summarize stdout None title content t = (Ok (_fallback_summarize content), t).
Proof. reflexivity. Qed.

Lemma summarize_answered
    (run : str -> str -> result output) (title content : str) (t : trace) out :
  run MODEL (build_prompt title content) = Ok out ->
  summarize stdout (Some run) title content t
  = (Ok (render_output out), t ++ [ReplicateRun MODEL (build_prompt title content)]).
Proof.
  intros H. unfold summarize, try_except, bind, perform, ret. rewrite H. reflexivity.
Qed.

(** The client failed: the error is printed, and what the print does
    decides between the fallback summary and the print's exception. *)
Lemma summarize_failed
    (run : str -> str -> result output) (title content : str) (t : trace) e :
  run MODEL (build_prompt title content) = Raise e ->
  summarize stdout (Some run) title content t
  = (match stdout (lit "Replicate API error: " ++ exn_str e) with
     | Ok _ => Ok (_fallback_summarize content)
     | Raise e' => Raise e'
     end,
     (t ++ [ReplicateRun MODEL (build_prompt title content)])
       ++ [PrintLine (lit "Replicate API error: " ++ exn_str e)]).
Proof.
  intros H. unfold summarize, try_except, bind, print, perform, ret. rewrite H.
  destruct (stdout (lit "Replicate API error: " ++ exn_str e)); reflexivity.
Qed.

End SummarizeFacts.

(** C3 (where the code departs from it).  Without a client [summarize]
    returns the fallback summary, which is non-empty for a non-empty
    content, and nothing is called; when the client fails and its error
    can be printed, the fallback summary is returned.  But when the
    client fails and the [print] of its error fails too, the exception
    of the [print] leaves [summarize]: the handler of the [try] does
    not protect its own code. *)
Theorem summarize_raises_when_print_fails
    (stdout : str -> result unit)
    (run : str -> str -> result output) (title content : str) (t : trace) :
  summarize stdout None title content t = (Ok (_fallback_summarize content), t)
  /\ (content <> [] -> _fallback_summarize content <> [])
  /\ (forall e,
         run MODEL (build_prompt title content) = Raise e ->
         stdout (lit "Replicate API error: " ++ exn_str e) = Ok tt ->
         fst (summarize stdout (Some run) title content t)
         = Ok (_fallback_summarize content))
  /\ (forall e e',
         run MODEL (build_prompt title content) = Raise e ->
         stdout (lit "Replicate API error: " ++ exn_str e) = Raise e' ->
         summarize stdout (Some run) title content t
         = (Raise e',
            t ++ [ReplicateRun MODEL (build_prompt title content);
                  PrintLine (lit "Replicate API error: " ++ exn_str e)])).
Proof.
  split; [reflexivity|]. split; [apply fallback_nonempty|]. split.
  - intros e Hrun Hout. rewrite (summarize_failed stdout run title content t e Hrun), Hout.
    reflexivity.
  - intros e e' Hrun Hout.
    rewrite (summarize_failed stdout run title content t e Hrun), Hout, <- app_assoc.
    reflexivity.
Qed.

Lemma summarize_raises_when_print_fails_witness :
  run_failing MODEL (build_prompt (lit "Storm") (lit "Rain over the coast"))
  = Raise (Exception (lit "401 Unauthorized"))
  /\ stdout_closed (lit "Replicate API error: 401 Unauthorized")
     = Raise (Exception (lit "I/O operation on closed file."))
  /\ summarize stdout_closed (Some run_failing) (lit "Storm") (lit "Rain over the coast") []
     = (Raise (Exception (lit "I/O operation on closed file.")),
        [ReplicateRun MODEL (build_prompt (lit "Storm") (lit "Rain over the coast"));
         PrintLine (lit "Replicate API error: 401 Unauthorized")])
  /\ fst (summarize stdout_ok (Some run_failing) (lit "Storm") (lit "Rain over the coast") [])
     = Ok (lit "Rain over the coast").
Proof.
  split; [reflexivity|]. split; [reflexivity|].
  split.
  - exact (proj2 (proj2 (proj2 (summarize_raises_when_print_fails stdout_closed run_failing
                                  (lit "Storm") (lit "Rain over the coast") [])))
             (Exception (lit "401 Unauthorized"))
             (Exception (lit "I/O operation on closed file.")) eq_refl eq_refl).
  - rewrite (proj1 (proj2 (proj2 (summarize_raises_when_print_fails stdout_ok run_failing
                                    (lit "Storm") (lit "Rain over the coast") [])))
               (Exception (lit "401 Unauthorized")) eq_refl eq_refl).
    reflexivity.
Defined.

Lemma filter_truthy_id (l : list str) : Forall (fun f => f <> []) l -> filter truthy l = l.
Proof.
  induction 1 as [|f l Hf _ IH]; [reflexivity|].
  simpl. apply truthy_true in Hf. rewrite Hf, IH. reflexivity.
Qed.

Lemma map_strip_id (l : list str) : Forall (fun f => strip f = f) l -> map strip l = l.
Proof.
  induction 1 as [|f l Hf _ IH]; [reflexivity|].
  simpl. rewrite Hf, IH. reflexivity.
Qed.

(** C9 (as the code has it).  When the client answers with a list of
    fragments, the summary is made of the non-empty fragments, each one
    trimmed, joined with single spaces, and the whole trimmed; when it
    answers with one text, the summary is that text trimmed.  For
    fragments that are non-empty and have no whitespace at their ends
    this is the fragments joined with single spaces, trimmed. *)
Theorem summarize_output_rendering
    (stdout : str -> result unit)
    (run : str -> str -> result output) (title content : str) (t : trace) :
  (forall fragments,
      run MODEL (build_prompt title content) = Ok (OutList fragments) ->
      summarize stdout (Some run) title content t
      = (Ok (strip (join [SPACE] (map strip (filter truthy fragments)))),
         t ++ [ReplicateRun MODEL (build_prompt title content)]))
  /\ (forall text,
         run MODEL (build_prompt title content) = Ok (OutStr text) ->
         summarize stdout (Some run) title content t
         = (Ok (strip text), t ++ [ReplicateRun MODEL (build_prompt title content)]))
  /\ (forall fragments,
         Forall (fun f => f <> []) fragments ->
         Forall (fun f => strip f = f) fragments ->
         render_output (OutList fragments) = strip (join [SPACE] fragments)).
Proof.
  split; [|split].
  - intros fragments H. unfold summarize, try_except, bind, perform, ret.
    rewrite H. reflexivity.
  - intros text H. unfold summarize, try_except, bind, perform, ret.
    rewrite H. reflexivity.
  - intros fragments H1 H2. simpl.
    rewrite (filter_truthy_id _ H1), (map_strip_id _ H2). reflexivity.
Qed.

Lemma summarize_output_rendering_witness :
  run_fragments MODEL (build_prompt (lit "Storm") (lit "Rain"))
  = Ok (OutList [lit "a "; lit "b"])
  /\ fst (summarize stdout_ok (Some run_fragments) (lit "Storm") (lit "Rain") []) = Ok (lit "a b").
Proof.
  split; [reflexivity|].
  rewrite (proj1 (summarize_output_rendering stdout_ok run_fragments (lit "Storm") (lit "Rain") [])
             [lit "a "; lit "b"] eq_refl).
  reflexivity.
Defined.

(** For the fragments "a " and "b" the summary is "a b", while the
    fragments joined with single spaces and trimmed are "a  b", with two
    spaces. *)
Lemma fragments_trimmed_before_join :
  run_fragments MODEL (build_prompt (lit "Storm") (lit "Rain"))
  = Ok (OutList [lit "a "; lit "b"])
  /\ strip (join [SPACE] [lit "a "; lit "b"]) = lit "a  b"
  /\ fst (summarize stdout_ok (Some run_fragments) (lit "Storm") (lit "Rain") [])
     <> Ok (strip (join [SPACE] [lit "a "; lit "b"])).
Proof.
  split; [reflexivity|]. split; [reflexivity|].
  vm_compute. discriminate.
Qed.

(** * Further properties of the code *)

(** ** Trimming and clean-up *)

Lemma lstrip_rstrip_fixed (s : str) : lstrip s = s -> lstrip (rstrip s) = rstrip s.
Proof.
  destruct s as [|c s]; [reflexivity|]. intros H.
  assert (Hc : isspace c = false) by exact (lstrip_head _ _ _ H).
  rewrite rstrip_cons, Hc. destruct (rstrip s) as [|d r]; cbn [lstrip]; rewrite Hc; reflexivity.
Qed.

Lemma strip_idem (s : str) : strip (strip s) = strip s.
Proof.
  unfold strip.
  rewrite (lstrip_rstrip_fixed (lstrip s) (lstrip_idem s)).
  apply rstrip_idem.
Qed.

Lemma filter_nonspace_lstrip (s : str) : filter nonspace (lstrip s) = filter nonspace s.
Proof.
  induction s as [|c s IH]; [reflexivity|]. simpl. unfold nonspace at 2.
  destruct (isspace c) eqn:E; simpl; [exact IH|].
  unfold nonspace at 1. rewrite E. reflexivity.
Qed.

Lemma filter_nonspace_rstrip (s : str) : filter nonspace (rstrip s) = filter nonspace s.
Proof.
  unfold rstrip. rewrite filter_rev, filter_nonspace_lstrip, <- filter_rev, rev_involutive.
  reflexivity.
Qed.

Lemma filter_nonspace_sub_ws (s : str) b :
  filter nonspace (sub_ws_from s b) = filter nonspace s.
Proof.
  revert b. induction s as [|c s IH]; intros b; [reflexivity|]. simpl.
  unfold nonspace at 2. destruct (isspace c) eqn:E; simpl.
  - destruct b; [apply IH|]. simpl. apply IH.
  - unfold nonspace at 1. rewrite E. simpl. rewrite IH. reflexivity.
Qed.

Lemma length_lstrip (s : str) : length (lstrip s) <= length s.
Proof.
  induction s as [|c s IH]; [apply Nat.le_refl|]. simpl.
  destruct (isspace c); simpl; lia.
Qed.

Lemma length_rstrip (s : str) : length (rstrip s) <= length s.
Proof.
  unfold rstrip. rewrite length_rev.
  etransitivity; [apply length_lstrip|]. rewrite length_rev. apply Nat.le_refl.
Qed.

Lemma length_sub_ws (s : str) b : length (sub_ws_from s b) <= length s.
Proof.
  revert b. induction s as [|c s IH]; intros b; [apply Nat.le_refl|]. simpl.
  pose proof (IH true). pose proof (IH false).
  destruct (isspace c); [destruct b|]; simpl; lia.
Qed.

Lemma filter_nonspace_nil (s : str) :
  filter nonspace s = [] <-> forallb isspace s = true.
Proof.
  induction s as [|c s IH]; simpl; [split; reflexivity|].
  unfold nonspace at 1. destruct (isspace c); simpl; [exact IH|].
  split; discriminate.
Qed.

(** X1.  The clean-up keeps every character that is not whitespace, in
    order, and never makes the text longer. *)
Theorem clean_up_keeps_text (s : str) :
  filter nonspace (clean_up s) = filter nonspace s
  /\ length (clean_up s) <= length s.
Proof.
  unfold clean_up, strip, re_sub_ws. split.
  - rewrite filter_nonspace_rstrip, filter_nonspace_lstrip. apply filter_nonspace_sub_ws.
  - etransitivity; [apply length_rstrip|].
    etransitivity; [apply length_lstrip|]. apply length_sub_ws.
Qed.

Lemma clean_up_nil_iff (s : str) : clean_up s = [] <-> forallb isspace s = true.
Proof.
  rewrite <- filter_nonspace_nil. split.
  - intros H.
    assert (E : filter nonspace (clean_up s) = filter nonspace s).
    { unfold clean_up, strip, re_sub_ws.
      rewrite filter_nonspace_rstrip, filter_nonspace_lstrip. apply filter_nonspace_sub_ws. }
    rewrite <- E, H. reflexivity.
  - intros H.
    assert (E : filter nonspace (clean_up s) = []).
    { unfold clean_up, strip, re_sub_ws.
      rewrite filter_nonspace_rstrip, filter_nonspace_lstrip, filter_nonspace_sub_ws.
      exact H. }
    pose proof (clean_up_single_spaced s) as Hs.
    destruct (clean_up s) as [|c r]; [reflexivity|].
    apply single_spaced_head in Hs. simpl in E. unfold nonspace at 1 in E.
    rewrite Hs in E. discriminate.
Qed.

(** ** Noise removal *)

Lemma node_induction (P : node -> Prop) :
  (forall k s, P (NavigableString k s)) ->
  (forall name cls cs, Forall P cs -> P (Tag name cls cs)) ->
  forall n, P n.
Proof.
  intros Hs Ht. fix IH 1. intros [k s|name cls cs]; [apply Hs|].
  apply Ht. induction cs as [|c cs IHcs]; constructor; [apply IH|exact IHcs].
Qed.

Lemma in_flat_map_Forall {A B} (P : A -> Prop) (f : A -> list B) (l : list A) (y : B) :
  Forall P l -> In y (flat_map f l) -> exists x, P x /\ In x l /\ In y (f x).
Proof.
  intros HF Hin. apply in_flat_map in Hin as (x & Hx & Hy).
  exists x. rewrite Forall_forall in HF. split; [apply HF, Hx|split; assumption].
Qed.

Lemma remove_tags_clean (names : list str) (n : node) (t : node) :
  In t (flat_map tags_of (remove_tags names n)) -> named_in names t = false.
Proof.
  revert t. induction n as [k s|name cls cs IH] using node_induction; intros t Hin.
  - contradiction.
  - simpl in Hin. destruct (existsb (str_eqb name) names) eqn:E; [contradiction|].
    simpl in Hin. rewrite app_nil_r in Hin. destruct Hin as [<-|Hin]; [exact E|].
    apply in_flat_map in Hin as (c' & Hc' & Ht).
    apply (in_flat_map_Forall _ _ _ _ IH) in Hc' as (c & Hc & _ & Hc').
    apply Hc. apply in_flat_map. exists c'. split; assumption.
Qed.

Lemma decompose_all_clean (names : list str) (sp : soup) (t : node) :
  In t (all_tags (decompose_all names sp)) -> named_in names t = false.
Proof.
  unfold all_tags, decompose_all. intros Hin.
  apply in_flat_map in Hin as (n' & Hn' & Ht).
  apply in_flat_map in Hn' as (n & _ & Hn').
  apply (remove_tags_clean names n). apply in_flat_map. exists n'. split; assumption.
Qed.

(** The tags below a tag of a page are tags of the page. *)
Lemma tags_of_trans (n t d : node) : In t (tags_of n) -> In d (tags_of t) -> In d (tags_of n).
Proof.
  induction n as [k s|name cls cs IH] using node_induction; intros Ht Hd; [contradiction|].
  simpl in Ht. destruct Ht as [<-|Ht]; [exact Hd|].
  simpl. right.
  apply (in_flat_map_Forall _ _ _ _ IH) in Ht as (c & Hc & Hin & Ht).
  apply in_flat_map. exists c. split; [exact Hin|exact (Hc Ht Hd)].
Qed.

Lemma all_tags_trans (sp : soup) (t d : node) :
  In t (all_tags sp) -> In d (tags_of t) -> In d (all_tags sp).
Proof.
  unfold all_tags. intros Ht Hd. apply in_flat_map in Ht as (n & Hn & Ht).
  apply in_flat_map. exists n. split; [exact Hn|exact (tags_of_trans _ _ _ Ht Hd)].
Qed.

Lemma remove_tags_fixed (names : list str) (n : node) :
  (forall t, In t (tags_of n) -> named_in names t = false) ->
  remove_tags names n = [n].
Proof.
  induction n as [k s|name cls cs IH] using node_induction; intros H; [reflexivity|].
  simpl. rewrite (H (Tag name cls cs) (or_introl eq_refl) : existsb _ _ = false).
  assert (E : flat_map (remove_tags names) cs = cs).
  { assert (Hcs : forall c t, In c cs -> In t (tags_of c) -> named_in names t = false).
    { intros c t Hc Ht. apply H. simpl. right. apply in_flat_map. exists c. split; assumption. }
    clear H. induction IH as [|c cs Hc _ IHcs]; [reflexivity|].
    simpl. rewrite Hc, IHcs; [reflexivity| |].
    - intros c' t Hc' Ht. apply (Hcs c' t); [right; exact Hc'|exact Ht].
    - intros t Ht. apply (Hcs c t); [left; reflexivity|exact Ht]. }
  rewrite E. reflexivity.
Qed.

Lemma decompose_all_fixed (names : list str) (sp : soup) :
  (forall t, In t (all_tags sp) -> named_in names t = false) ->
  decompose_all names sp = sp.
Proof.
  unfold decompose_all, all_tags. induction sp as [|n sp IH]; intros H; [reflexivity|].
  simpl. rewrite remove_tags_fixed, IH; [reflexivity| |].
  - intros t Ht. apply H. simpl. apply in_or_app. right. exact Ht.
  - intros t Ht. apply H. simpl. apply in_or_app. left. exact Ht.
Qed.

(** X2.  After the noise removal no [script], [style], [nav], [footer],
    [header] or [aside] element is left on the page, at any depth: none
    is matched by a content selector or found as a paragraph, and none
    lies below an element that is. *)
Theorem noise_removed (sp : soup) :
  (forall t, In t (all_tags (decompose_all noise_tags sp)) -> named_in noise_tags t = false)
  /\ (forall sel t d,
         In t (select sel (decompose_all noise_tags sp)) ->
         In d (tags_of t) ->
         named_in noise_tags d = false)
  /\ (forall p d,
         In p (find_all (lit "p") (decompose_all noise_tags sp)) ->
         In d (tags_of p) ->
         named_in noise_tags d = false).
Proof.
  split; [intros t; apply decompose_all_clean|].
  split.
  - intros sel t d Ht Hd. apply filter_In in Ht as [Ht _].
    exact (decompose_all_clean _ _ _ (all_tags_trans _ _ _ Ht Hd)).
  - intros p d Hp Hd. apply filter_In in Hp as [Hp _].
    exact (decompose_all_clean _ _ _ (all_tags_trans _ _ _ Hp Hd)).
Qed.

Lemma noise_removed_witness :
  In (elem "article" [] [elem "p" [] [text "Body"]])
     (select (TypeSel (lit "article")) (decompose_all noise_tags page_with_noise))
  /\ select (ClassSel (lit "content")) page_with_noise
     = [elem "div" ["content"%string] [text "Menu"]]
  /\ select (ClassSel (lit "content")) (decompose_all noise_tags page_with_noise) = []
  /\ named_in noise_tags (elem "p" [] [text "Body"]) = false.
Proof.
  assert (H : In (elem "article" [] [elem "p" [] [text "Body"]])
                 (select (TypeSel (lit "article")) (decompose_all noise_tags page_with_noise))).
  { left. reflexivity. }
  split; [exact H|]. split; [reflexivity|]. split; [reflexivity|].
  apply (proj1 (proj2 (noise_removed page_with_noise)) _ _ _ H).
  right. left. reflexivity.
Defined.

(** X3.  Removing the noise a second time changes nothing, and a page
    without noise elements is left as it is. *)
Theorem noise_removal_idempotent (sp : soup) :
  decompose_all noise_tags (decompose_all noise_tags sp) = decompose_all noise_tags sp
  /\ ((forall t, In t (all_tags sp) -> named_in noise_tags t = false) ->
      decompose_all noise_tags sp = sp
      /\ raw_content sp = paragraph_fallback sp (selector_scan sp)).
Proof.
  split.
  - apply decompose_all_fixed. intros t. apply decompose_all_clean.
  - intros H. pose proof (decompose_all_fixed noise_tags sp H) as E.
    split; [exact E|]. unfold raw_content. rewrite E. reflexivity.
Qed.

Lemma noise_removal_idempotent_witness :
  (forall t, In t (all_tags page_paragraphs) -> named_in noise_tags t = false)
  /\ decompose_all noise_tags page_paragraphs = page_paragraphs.
Proof.
  assert (H : forall t, In t (all_tags page_paragraphs) -> named_in noise_tags t = false).
  { intros t Ht. simpl in Ht.
    repeat (destruct Ht as [<-|Ht]; [reflexivity|]). contradiction. }
  split; [exact H|].
  exact (proj1 (proj2 (noise_removal_idempotent page_paragraphs) H)).
Defined.

(** ** Title and content *)

(** X4.  The extracted title is never empty and carries no whitespace
    at its ends. *)
Theorem extract_title_nonempty_trimmed (sp : soup) :
  _extract_title sp <> [] /\ strip (_extract_title sp) = _extract_title sp.
Proof.
  unfold _extract_title.
  destruct (first_title_spec title_selectors sp)
    as [(before & sel & after & _ & _ & Hne & Hf)|[_ Hf]]; rewrite Hf.
  - split; [exact Hne|].
    destruct (candidate_text_nonempty _ _ Hne) as (e & _ & ->). apply strip_idem.
  - split; [discriminate|reflexivity].
Qed.

(** X5.  As soon as one element matched by a content selector has a
    trimmed text of 100 characters or more, the paragraphs are not
    consulted: the content is the clean-up of the text kept by the
    scan, which is one of the candidates and at least as long as that
    element's text. *)
Theorem long_candidate_wins (sp : soup) (t : str) :
  In t (content_candidates (decompose_all noise_tags sp)) ->
  100 <= length t ->
  raw_content sp = selector_scan (decompose_all noise_tags sp)
  /\ In (raw_content sp) (content_candidates (decompose_all noise_tags sp))
  /\ length t <= length (raw_content sp)
  /\ _extract_article_content sp = clean_up (selector_scan (decompose_all noise_tags sp)).
Proof.
  intros Hin Hlen.
  pose proof (scan_texts_upper _ _ Hin) as Hup. fold (selector_scan (decompose_all noise_tags sp)) in Hup.
  assert (E : raw_content sp = selector_scan (decompose_all noise_tags sp)).
  { unfold raw_content, paragraph_fallback.
    destruct (length (selector_scan (decompose_all noise_tags sp)) <? 100) eqn:El;
      [|reflexivity].
    apply Nat.ltb_lt in El. lia. }
  split; [exact E|]. rewrite E. split; [|split; [exact Hup|]].
  - destruct (scan_texts_member (content_candidates (decompose_all noise_tags sp)))
      as [Hnil|Hm]; [|exact Hm].
    unfold selector_scan in Hup. rewrite Hnil in Hup. simpl in Hup. lia.
  - unfold _extract_article_content. rewrite E. reflexivity.
Qed.

Lemma long_candidate_wins_witness :
  In (repeat 97%N 120) (content_candidates (decompose_all noise_tags page_long_article))
  /\ 100 <= length (repeat 97%N 120)
  /\ _extract_article_content page_long_article = repeat 97%N 120.
Proof.
  assert (H1 : In (repeat 97%N 120)
                  (content_candidates (decompose_all noise_tags page_long_article))).
  { left. reflexivity. }
  assert (H2 : 100 <= length (repeat 97%N 120)).
  { rewrite repeat_length. lia. }
  split; [exact H1|]. split; [exact H2|].
  destruct (long_candidate_wins page_long_article _ H1 H2) as (_ & _ & _ & E).
  rewrite E. reflexivity.
Defined.

(** ** Outcomes of an extraction *)

Section OutcomeFacts.

Variable urlparse : str -> result ParseResult.
Variable web : str -> result (list Init.Byte.byte).
Variable html_parser : list Init.Byte.byte -> result soup.

Lemma extract_content_fetch_failed (url : str) (t : trace) e :
  _is_valid_url urlparse url = true ->
  web url = Raise e ->
  extract_content urlparse web html_parser url t
  = (Ok (None, Some (match e with
                     | RequestException msg => lit "Error fetching URL: " ++ msg
                     | Exception msg => lit "Error processing content: " ++ msg
                     end)),
     t ++ [HttpGet url]).
Proof.
  intros Hv Hw.
  unfold extract_content, try_except, bind, requests_get, perform, lift, ret.
  rewrite Hv, Hw. simpl. destruct e; reflexivity.
Qed.

Lemma extract_content_parse_failed (url : str) (t : trace) body e :
  _is_valid_url urlparse url = true ->
  web url = Ok body ->
  html_parser body = Raise e ->
  extract_content urlparse web html_parser url t
  = (Ok (None, Some (match e with
                     | RequestException msg => lit "Error fetching URL: " ++ msg
                     | Exception msg => lit "Error processing content: " ++ msg
                     end)),
     t ++ [HttpGet url]).
Proof.
  intros Hv Hw Hp.
  unfold extract_content, try_except, bind, requests_get, perform, lift, ret.
  rewrite Hv, Hw, Hp. simpl. destruct e; reflexivity.
Qed.

(** Every way through [extract_content]. *)
Lemma extract_content_cases (url : str) (t : trace) :
  (_is_valid_url urlparse url = false
   /\ extract_content urlparse web html_parser url t
      = (Ok (None, Some (lit "Invalid URL format")), t))
  \/ (_is_valid_url urlparse url = true
      /\ exists reason,
          reason <> []
          /\ extract_content urlparse web html_parser url t
             = (Ok (None, Some reason), t ++ [HttpGet url]))
  \/ (_is_valid_url urlparse url = true
      /\ exists body sp,
          web url = Ok body /\ html_parser body = Ok sp
          /\ _extract_article_content sp <> []
          /\ extract_content urlparse web html_parser url t
             = (Ok (Some {| title := _extract_title sp;
                            content := _extract_article_content sp;
                            url := url |}, None),
                t ++ [HttpGet url])).
Proof.
  destruct (_is_valid_url urlparse url) eqn:Hv.
  2:{ left. split; [reflexivity|]. apply extract_content_invalid. exact Hv. }
  right. destruct (web url) as [body|e] eqn:Hw.
  2:{ left. split; [reflexivity|]. eexists. split.
      2:{ apply (extract_content_fetch_failed url t e Hv Hw). }
      destruct e; discriminate. }
  destruct (html_parser body) as [sp|e] eqn:Hp.
  2:{ left. split; [reflexivity|]. eexists. split.
      2:{ apply (extract_content_parse_failed url t body e Hv Hw Hp). }
      destruct e; discriminate. }
  rewrite (extract_content_fetched urlparse web html_parser url t body sp Hv Hw Hp).
  destruct (truthy (_extract_article_content sp)) eqn:E; simpl.
  - right. split; [reflexivity|]. exists body, sp.
    apply truthy_true in E. repeat split; assumption.
  - left. split; [reflexivity|]. eexists. split; [|reflexivity]. discriminate.
Qed.

End OutcomeFacts.

(** X6.  [extract_content] never raises and returns either an article
    with no error, or no article with a non-empty reason, so that the
    caller's test [if error] tells the two apart; it sends one GET for
    a valid URL and none otherwise. *)
Theorem extract_content_outcome
    (urlparse : str -> result ParseResult)
    (web : str -> result (list Init.Byte.byte))
    (html_parser : list Init.Byte.byte -> result soup)
    (url : str) (t : trace) :
  exists article_data error,
    extract_content urlparse web html_parser url t
    = (Ok (article_data, error),
       if _is_valid_url urlparse url then t ++ [HttpGet url] else t)
    /\ ((exists art, article_data = Some art /\ error = None)
        \/ (exists reason, article_data = None /\ error = Some reason /\ reason <> [])).
Proof.
  destruct (extract_content_cases urlparse web html_parser url t)
    as [[Hv E]|[(Hv & reason & Hne & E)|(Hv & body & sp & _ & _ & _ & E)]];
    rewrite E, Hv.
  - exists None, (Some (lit "Invalid URL format")). split; [reflexivity|].
    right. eexists. repeat split. discriminate.
  - exists None, (Some reason). split; [reflexivity|].
    right. exists reason. repeat split. exact Hne.
  - eexists _, None. split; [reflexivity|]. left. eexists. split; reflexivity.
Qed.

(** X7.  For a valid URL, an exception of the request is answered with
    "Error fetching URL: " and its message, any other exception of the
    fetch or of the parser with "Error processing content: " and its
    message; the GET was sent once and is not repeated. *)
Theorem fetch_failure_reported
    (urlparse : str -> result ParseResult)
    (web : str -> result (list Init.Byte.byte))
    (html_parser : list Init.Byte.byte -> result soup)
    (url : str) (t : trace) :
  _is_valid_url urlparse url = true ->
  (forall msg,
      web url = Raise (RequestException msg) ->
      extract_content urlparse web html_parser url t
      = (Ok (None, Some (lit "Error fetching URL: " ++ msg)), t ++ [HttpGet url]))
  /\ (forall msg,
         web url = Raise (Exception msg) ->
         extract_content urlparse web html_parser url t
         = (Ok (None, Some (lit "Error processing content: " ++ msg)), t ++ [HttpGet url]))
  /\ (forall body msg,
         web url = Ok body ->
         html_parser body = Raise (Exception msg) ->
         extract_content urlparse web html_parser url t
         = (Ok (None, Some (lit "Error processing content: " ++ msg)), t ++ [HttpGet url])).
Proof.
  intros Hv. split; [|split].
  - intros msg Hw. exact (extract_content_fetch_failed urlparse web html_parser url t _ Hv Hw).
  - intros msg Hw. exact (extract_content_fetch_failed urlparse web html_parser url t _ Hv Hw).
  - intros body msg Hw Hp.
    exact (extract_content_parse_failed urlparse web html_parser url t body _ Hv Hw Hp).
Qed.

Lemma fetch_failure_reported_witness :
  _is_valid_url urlsplit (lit "https://example.com/a") = true
  /\ extract_content urlsplit web_down (parser_of page_paragraphs)
       (lit "https://example.com/a") []
     = (Ok (None, Some (lit "Error fetching URL: Connection refused")),
        [HttpGet (lit "https://example.com/a")])
  /\ extract_content urlsplit web_ok parser_failing (lit "https://example.com/a") []
     = (Ok (None, Some (lit "Error processing content: parser error")),
        [HttpGet (lit "https://example.com/a")]).
Proof.
  split; [reflexivity|]. split.
  - apply (proj1 (fetch_failure_reported urlsplit web_down (parser_of page_paragraphs)
                    (lit "https://example.com/a") [] eq_refl)).
    reflexivity.
  - apply (proj2 (proj2 (fetch_failure_reported urlsplit web_ok parser_failing
                           (lit "https://example.com/a") [] eq_refl)) []).
    + reflexivity.
    + reflexivity.
Defined.

(** X8.  For a page that was fetched and parsed, the extraction fails
    with "Could not extract article content" exactly when the content
    before the clean-up holds nothing but whitespace; otherwise it
    returns the title of the page as parsed, the cleaned content and the
    URL it was given. *)
Theorem extraction_succeeds_iff_text
    (urlparse : str -> result ParseResult)
    (web : str -> result (list Init.Byte.byte))
    (html_parser : list Init.Byte.byte -> result soup)
    (url : str) (t : trace) (body : list Init.Byte.byte) (sp : soup) :
  _is_valid_url urlparse url = true ->
  web url = Ok body ->
  html_parser body = Ok sp ->
  (forallb isspace (raw_content sp) = true ->
   extract_content urlparse web html_parser url t
   = (Ok (None, Some (lit "Could not extract article content")), t ++ [HttpGet url]))
  /\ (forallb isspace (raw_content sp) = false ->
      extract_content urlparse web html_parser url t
      = (Ok (Some {| title := _extract_title sp;
                     content := clean_up (raw_content sp);
                     url := url |}, None),
         t ++ [HttpGet url])).
Proof.
  intros Hv Hw Hp.
  rewrite (extract_content_fetched urlparse web html_parser url t body sp Hv Hw Hp).
  unfold _extract_article_content. split; intros H.
  - apply clean_up_nil_iff in H. rewrite H. reflexivity.
  - destruct (truthy (clean_up (raw_content sp))) eqn:E; [reflexivity|].
    apply truthy_false, clean_up_nil_iff in E. congruence.
Qed.

Lemma extraction_succeeds_iff_text_witness :
  forallb isspace (raw_content page_without_body) = true
  /\ forallb isspace (raw_content page_paragraphs) = false
  /\ fst (extract_content urlsplit web_ok (parser_of page_without_body)
            (lit "https://example.com/a") [])
     = Ok (None, Some (lit "Could not extract article content"))
  /\ fst (extract_content urlsplit web_ok (parser_of page_paragraphs)
            (lit "https://example.com/a") [])
     = Ok (Some {| title := lit "Article Title";
                   content := lit "Rain is expected over the coast. Winds will ease by the evening.";
                   url := lit "https://example.com/a" |}, None).
Proof.
  split; [reflexivity|]. split; [reflexivity|]. split.
  - rewrite (proj1 (extraction_succeeds_iff_text urlsplit web_ok (parser_of page_without_body)
                      (lit "https://example.com/a") [] [] page_without_body
                      eq_refl eq_refl eq_refl) eq_refl).
    reflexivity.
  - rewrite (proj2 (extraction_succeeds_iff_text urlsplit web_ok (parser_of page_paragraphs)
                      (lit "https://example.com/a") [] [] page_paragraphs
                      eq_refl eq_refl eq_refl) eq_refl).
    reflexivity.
Defined.

(** ** The fallback summary *)

Lemma join_firstn_skipn (sep : str) (k : nat) (l : list str) :
  0 < k -> k < length l ->
  join sep l = join sep (firstn k l) ++ sep ++ join sep (skipn k l).
Proof.
  revert k. induction l as [|p rest IH]; intros k Hk Hl; [simpl in Hl; lia|].
  destruct k as [|k]; [lia|]. simpl in Hl.
  destruct rest as [|q rest]; [simpl in Hl; lia|].
  destruct k as [|k].
  - reflexivity.
  - rewrite join_cons by discriminate.
    rewrite (IH (S k)) by (simpl in *; lia).
    change (firstn (S (S k)) (p :: q :: rest)) with (p :: firstn (S k) (q :: rest)).
    rewrite (join_cons sep p (firstn (S k) (q :: rest))) by (simpl; discriminate).
    change (skipn (S (S k)) (p :: q :: rest)) with (skipn (S k) (q :: rest)).
    rewrite <- !app_assoc. reflexivity.
Qed.

Lemma length_join_firstn (sep : str) (k : nat) (l : list str) :
  length (join sep (firstn k l)) <= length (join sep l).
Proof.
  destruct k as [|k]; [simpl; lia|].
  destruct (Nat.lt_ge_cases (S k) (length l)) as [H|H].
  - rewrite (join_firstn_skipn sep (S k) l) by lia.
    rewrite length_app. lia.
  - rewrite firstn_all2 by exact H. apply Nat.le_refl.
Qed.

Lemma fallback_three_units (content : str) :
  3 <= length (split (lit ". ") (map newline_to_space content)) ->
  _fallback_summarize content
  = join (lit ". ") (firstn 3 (split (lit ". ") (map newline_to_space content))) ++ lit ".".
Proof.
  intros H. unfold _fallback_summarize. rewrite replace_newline.
  apply Nat.leb_le in H. rewrite H. reflexivity.
Qed.

Lemma fallback_few_units (content : str) :
  length (split (lit ". ") (map newline_to_space content)) < 3 ->
  _fallback_summarize content
  = if 500 <? length content then firstn 500 content ++ lit "..." else content.
Proof.
  intros H. unfold _fallback_summarize, slice_to. rewrite replace_newline.
  apply Nat.leb_gt in H. rewrite H. reflexivity.
Qed.

Lemma startswith_app_l (p a b : str) :
  startswith p a = true -> startswith p (a ++ b) = true.
Proof.
  revert a. induction p as [|x p IH]; intros a H; [reflexivity|].
  destruct a as [|y a]; [discriminate|]. simpl in *.
  apply andb_prop in H as [Hxy H]. rewrite Hxy, (IH a H). reflexivity.
Qed.

Lemma not_contains (sep x : str) :
  sep <> [] ->
  (forall a b, x = a ++ b -> b <> [] -> startswith sep b = false) ->
  contains sep x = false.
Proof.
  intros Hsep. induction x as [|c x IH]; intros H.
  - destruct sep; [congruence|reflexivity].
  - cbn [contains]. rewrite (H [] (c :: x) eq_refl) by discriminate.
    apply IH. intros a b -> Hb. apply (H (c :: a) b eq_refl Hb).
Qed.

(** No piece of a split holds the separator. *)
Lemma split_from_units (sep : str) (n : nat) :
  sep <> [] ->
  forall s cur,
    length s <= n ->
    (forall a b, rev cur = a ++ b -> b <> [] -> startswith sep (b ++ s) = false) ->
    Forall (fun u => contains sep u = false) (split_from sep s 0 cur).
Proof.
  intros Hsep. induction n as [|n IH]; intros s cur Hn Hinv.
  - destruct s; [|simpl in Hn; lia]. constructor; [|constructor].
    apply not_contains; [exact Hsep|]. intros a b E Hb.
    rewrite <- (app_nil_r b). exact (Hinv a b E Hb).
  - destruct s as [|c s].
    { constructor; [|constructor].
      apply not_contains; [exact Hsep|]. intros a b E Hb.
      rewrite <- (app_nil_r b). exact (Hinv a b E Hb). }
    simpl in Hn. cbn [split_from].
    destruct (startswith sep (c :: s)) eqn:E.
    + constructor.
      * apply not_contains; [exact Hsep|]. intros a b Ecur Hb.
        destruct (startswith sep b) eqn:Eb; [|reflexivity].
        specialize (Hinv a b Ecur Hb).
        rewrite (startswith_app_l sep b (c :: s) Eb) in Hinv. discriminate.
      * destruct (startswith_app _ _ E) as [rest Hrest].
        destruct sep as [|x sep']; [congruence|].
        simpl in Hrest. injection Hrest as Hc Hs. subst c s.
        replace (length (x :: sep') - 1) with (length sep') by (simpl; lia).
        rewrite split_from_skip. apply IH.
        -- rewrite length_app in Hn. lia.
        -- intros a b Enil Hb. simpl in Enil.
           symmetry in Enil. apply app_eq_nil in Enil as [_ ->]. congruence.
    + apply IH; [lia|]. intros a b Ecur Hb. simpl in Ecur.
      destruct (exists_last Hb) as (b' & x & ->).
      rewrite app_assoc in Ecur. apply app_inj_tail in Ecur as [Ecur <-].
      rewrite <- app_assoc. simpl.
      destruct b' as [|y b'].
      * simpl. exact E.
      * apply (Hinv a (y :: b') Ecur). discriminate.
Qed.

Lemma split_units (sep s : str) :
  sep <> [] -> Forall (fun u => contains sep u = false) (split sep s).
Proof.
  intros Hsep. unfold split.
  apply (split_from_units sep (length s) Hsep s [] (Nat.le_refl _)).
  intros a b E Hb. simpl in E. symmetry in E. apply app_eq_nil in E as [_ ->]. congruence.
Qed.

(** X9.  With three units or more the fallback summary is taken word
    for word from the start of the content (its newlines read as
    spaces).  With exactly three units, none of which holds ". ", it is
    the whole text and one more period.  With more, the text starts
    with three units that do not hold ". ", each followed by ". ", and
    the summary is these three units with ". " between them and the
    period of the third ". " at the end. *)
Theorem fallback_is_extractive (content : str) :
  (length (split (lit ". ") (map newline_to_space content)) = 3 ->
   exists u1 u2 u3,
     map newline_to_space content = u1 ++ lit ". " ++ u2 ++ lit ". " ++ u3
     /\ contains (lit ". ") u1 = false
     /\ contains (lit ". ") u2 = false
     /\ contains (lit ". ") u3 = false
     /\ _fallback_summarize content = map newline_to_space content ++ lit ".")
  /\ (3 < length (split (lit ". ") (map newline_to_space content)) ->
      exists u1 u2 u3 rest,
        map newline_to_space content
        = u1 ++ lit ". " ++ u2 ++ lit ". " ++ u3 ++ lit ". " ++ rest
        /\ contains (lit ". ") u1 = false
        /\ contains (lit ". ") u2 = false
        /\ contains (lit ". ") u3 = false
        /\ _fallback_summarize content = u1 ++ lit ". " ++ u2 ++ lit ". " ++ u3 ++ lit ".").
Proof.
  assert (Hsep : lit ". " <> []) by discriminate.
  pose proof (split_units (lit ". ") (map newline_to_space content) Hsep) as Hu.
  pose proof (join_split (lit ". ") (map newline_to_space content) Hsep) as Hj.
  split; intros H.
  - rewrite fallback_three_units by lia.
    destruct (split (lit ". ") (map newline_to_space content))
      as [|u1 [|u2 [|u3 [|u4 more]]]]; try discriminate H.
    inversion Hu as [|? ? H1 Hu2]; subst. inversion Hu2 as [|? ? H2 Hu3]; subst.
    inversion Hu3 as [|? ? H3 _]; subst.
    exists u1, u2, u3. rewrite <- Hj.
    repeat split; try assumption; reflexivity.
  - rewrite fallback_three_units by lia.
    destruct (split (lit ". ") (map newline_to_space content))
      as [|u1 [|u2 [|u3 [|u4 more]]]]; try (simpl in H; lia).
    inversion Hu as [|? ? H1 Hu2]; subst. inversion Hu2 as [|? ? H2 Hu3]; subst.
    inversion Hu3 as [|? ? H3 _]; subst.
    exists u1, u2, u3, (join (lit ". ") (u4 :: more)). rewrite <- Hj.
    split.
    { rewrite !join_cons by discriminate. reflexivity. }
    split; [exact H1|]. split; [exact H2|]. split; [exact H3|].
    cbn [firstn]. rewrite !join_cons by discriminate. cbn [join].
    rewrite <- !app_assoc. reflexivity.
Qed.

Lemma fallback_is_extractive_witness :
  length (split (lit ". ") (map newline_to_space (lit "One. Two. Three."))) = 3
  /\ _fallback_summarize (lit "One. Two. Three.") = lit "One. Two. Three.."
  /\ 3 < length (split (lit ". ") (map newline_to_space (lit "A. B.. C. D. E")))
  /\ _fallback_summarize (lit "A. B.. C. D. E") = lit "A. B.. C."
  /\ exists u1 u2 u3 rest,
       map newline_to_space (lit "A. B.. C. D. E")
       = u1 ++ lit ". " ++ u2 ++ lit ". " ++ u3 ++ lit ". " ++ rest
       /\ contains (lit ". ") u1 = false
       /\ contains (lit ". ") u2 = false
       /\ contains (lit ". ") u3 = false
       /\ _fallback_summarize (lit "A. B.. C. D. E")
          = u1 ++ lit ". " ++ u2 ++ lit ". " ++ u3 ++ lit ".".
Proof.
  split; [reflexivity|]. split.
  - destruct (proj1 (fallback_is_extractive (lit "One. Two. Three.")) eq_refl)
      as (u1 & u2 & u3 & _ & _ & _ & _ & E).
    rewrite E. reflexivity.
  - assert (H : 3 < length (split (lit ". ") (map newline_to_space (lit "A. B.. C. D. E")))).
    { vm_compute. lia. }
    split; [exact H|]. split; [reflexivity|].
    exact (proj2 (fallback_is_extractive (lit "A. B.. C. D. E")) H).
Defined.

(** X10.  The fallback summary is at most two characters longer than
    the content, and at most 503 characters long when the content has
    fewer than three units. *)
Theorem fallback_length (content : str) :
  length (_fallback_summarize content) <= length content + 2
  /\ (length (split (lit ". ") (map newline_to_space content)) < 3 ->
      length (_fallback_summarize content) <= 503).
Proof.
  destruct (Nat.lt_ge_cases (length (split (lit ". ") (map newline_to_space content))) 3)
    as [H|H].
  - rewrite (fallback_few_units content H).
    destruct (500 <? length content) eqn:E.
    + apply Nat.ltb_lt in E.
      rewrite length_app, firstn_length_le by lia.
      change (length (lit "...")) with 3. split; [lia|intros _; lia].
    + apply Nat.ltb_ge in E. split; [lia|intros _; lia].
  - split; [|lia].
    rewrite (fallback_three_units content H), length_app.
    pose proof (length_join_firstn (lit ". ") 3
                  (split (lit ". ") (map newline_to_space content))) as Hl.
    rewrite join_split in Hl by discriminate. rewrite length_map in Hl.
    change (length (lit ".")) with 1. lia.
Qed.

Lemma fallback_length_witness :
  length (split (lit ". ") (map newline_to_space (repeat 97%N 501))) < 3
  /\ length (_fallback_summarize (repeat 97%N 501)) <= 503
  /\ length (_fallback_summarize (repeat 97%N 501)) = 503.
Proof.
  assert (H : length (split (lit ". ") (map newline_to_space (repeat 97%N 501))) < 3).
  { vm_compute. lia. }
  split; [exact H|]. split.
  - exact (proj2 (fallback_length (repeat 97%N 501)) H).
  - vm_compute. reflexivity.
Defined.

(** ** The client's answer *)

Lemma strip_nil_iff (s : str) : strip s = [] <-> blank s = true.
Proof.
  unfold blank. rewrite <- filter_nonspace_nil. split.
  - intros H. rewrite <- (filter_nonspace_lstrip s), <- (filter_nonspace_rstrip (lstrip s)).
    fold (strip s). rewrite H. reflexivity.
  - intros H.
    assert (E : lstrip s = []).
    { induction s as [|c s IH]; [reflexivity|]. simpl in *. unfold nonspace at 1 in H.
      destruct (isspace c); [apply IH; exact H|discriminate]. }
    unfold strip. rewrite E. reflexivity.
Qed.

Lemma blank_app (a b : str) : blank (a ++ b) = blank a && blank b.
Proof. apply forallb_app. Qed.

Lemma join_blank (parts : list str) :
  forallb blank parts = true -> blank (join [SPACE] parts) = true.
Proof.
  induction parts as [|p rest IH]; intros H; [reflexivity|].
  simpl in H. apply andb_prop in H as [Hp Hrest].
  destruct rest as [|q rest]; [exact Hp|].
  rewrite join_cons by discriminate. rewrite !blank_app, Hp, (IH Hrest). reflexivity.
Qed.

Lemma render_output_blank (o : output) : blank_output o = true -> render_output o = [].
Proof.
  destruct o as [fragments|text]; simpl; intros H.
  - apply strip_nil_iff, join_blank.
    induction fragments as [|f rest IH]; [reflexivity|].
    simpl in H. apply andb_prop in H as [Hf Hrest]. simpl.
    destruct (truthy f); simpl; [|exact (IH Hrest)].
    rewrite (IH Hrest), andb_true_r.
    apply strip_nil_iff in Hf. rewrite Hf. reflexivity.
  - apply strip_nil_iff. exact H.
Qed.

Lemma build_prompt_truncates (title content content' : str) :
  firstn 3000 content = firstn 3000 content' ->
  build_prompt title content = build_prompt title content'.
Proof. intros H. unfold build_prompt, slice_to. rewrite H. reflexivity. Qed.

(** X11.  When the client answers, the summary does not depend on the
    content beyond its first 3000 characters: the prompt holds no more
    of it. *)
Theorem summarize_reads_3000
    (stdout : str -> result unit)
    (run : str -> str -> result output) (title content content' : str) (t : trace) out :
  firstn 3000 content = firstn 3000 content' ->
  run MODEL (build_prompt title content) = Ok out ->
  build_prompt title content' = build_prompt title content
  /\ summarize stdout (Some run) title content' t = summarize stdout (Some run) title content t.
Proof.
  intros Hc Hrun.
  pose proof (build_prompt_truncates title content content' Hc) as E.
  split; [symmetry; exact E|].
  rewrite (summarize_answered stdout run title content t out Hrun).
  rewrite E in Hrun.
  rewrite (summarize_answered stdout run title content' t out Hrun), E. reflexivity.
Qed.

Lemma summarize_reads_3000_witness :
  firstn 3000 (repeat 97%N 3000 ++ lit "first end")
  = firstn 3000 (repeat 97%N 3000 ++ lit "second end")
  /\ summarize stdout_ok (Some run_text) (lit "Storm") (repeat 97%N 3000 ++ lit "second end") []
     = summarize stdout_ok (Some run_text) (lit "Storm") (repeat 97%N 3000 ++ lit "first end") [].
Proof.
  assert (H : firstn 3000 (repeat 97%N 3000 ++ lit "first end")
              = firstn 3000 (repeat 97%N 3000 ++ lit "second end")).
  { vm_compute. reflexivity. }
  split; [exact H|].
  exact (proj2 (summarize_reads_3000 stdout_ok run_text (lit "Storm") _ _ [] _ H eq_refl)).
Defined.

(** X12.  The summary made from the client's answer has no whitespace
    at its ends; an answer without any text gives the empty summary, the
    fallback is not used for it. *)
Theorem client_summary_trimmed
    (stdout : str -> result unit)
    (run : str -> str -> result output) (title content : str) (t : trace) out :
  run MODEL (build_prompt title content) = Ok out ->
  exists summary,
    fst (summarize stdout (Some run) title content t) = Ok summary
    /\ strip summary = summary
    /\ (blank_output out = true -> summary = []).
Proof.
  intros H. exists (render_output out).
  rewrite (summarize_answered stdout run title content t out H).
  split; [reflexivity|]. split.
  - destruct out; simpl; apply strip_idem.
  - apply render_output_blank.
Qed.

Lemma client_summary_trimmed_witness :
  run_blank MODEL (build_prompt (lit "Storm") (lit "Rain over the coast"))
  = Ok (OutList [lit " "; []; [NEWLINE]])
  /\ blank_output (OutList [lit " "; []; [NEWLINE]]) = true
  /\ _fallback_summarize (lit "Rain over the coast") <> []
  /\ exists summary,
       fst (summarize stdout_ok (Some run_blank) (lit "Storm") (lit "Rain over the coast") [])
       = Ok summary
       /\ summary = [].
Proof.
  split; [reflexivity|]. split; [reflexivity|]. split; [discriminate|].
  destruct (client_summary_trimmed stdout_ok run_blank (lit "Storm") (lit "Rain over the coast") []
              _ eq_refl) as (summary & E & _ & Hblank).
  exists summary. split; [exact E|]. apply Hblank. reflexivity.
Defined.

(** ** The endpoint *)

(** What [summarize] can do: it fetches nothing; without a client it is
    the fallback summary and no effect; it returns a string whenever
    every line can be printed; and an exception that leaves it is the
    exception of the print of a client's error. *)
Lemma summarize_outcome
    (stdout : str -> result unit)
    (client : option (str -> str -> result output)) (title content : str) (t : trace) :
  exists r t',
    summarize stdout client title content t = (r, t')
    /\ filter is_http_get t' = filter is_http_get t
    /\ (client = None -> r = Ok (_fallback_summarize content) /\ t' = t)
    /\ ((forall line, stdout line = Ok tt) -> exists summary, r = Ok summary)
    /\ (forall e', r = Raise e' ->
                   exists run e,
                     client = Some run
                     /\ run MODEL (build_prompt title content) = Raise e
                     /\ stdout (lit "Replicate API error: " ++ exn_str e) = Raise e').
Proof.
  destruct client as [run|].
  - destruct (run MODEL (build_prompt title content)) as [out|e] eqn:Hrun.
    + rewrite (summarize_answered stdout run title content t out Hrun).
      eexists _, _. split; [reflexivity|].
      split; [rewrite filter_app; simpl; apply app_nil_r|].
      split; [discriminate|]. split; [intros _; eexists; reflexivity|discriminate].
    + rewrite (summarize_failed stdout run title content t e Hrun).
      eexists _, _. split; [reflexivity|].
      split; [rewrite !filter_app; simpl; rewrite !app_nil_r; reflexivity|].
      split; [discriminate|]. split.
      * intros Hout. rewrite Hout. eexists. reflexivity.
      * intros e' He'. exists run, e. split; [reflexivity|]. split; [exact Hrun|].
        destruct (stdout (lit "Replicate API error: " ++ exn_str e)) as [[]|e0];
          [discriminate|]. injection He' as ->. reflexivity.
  - rewrite summarize_no_client. eexists _, _. split; [reflexivity|].
    split; [reflexivity|]. split; [intros _; split; reflexivity|].
    split; [intros _; eexists; reflexivity|discriminate].
Qed.

Lemma request_url_some (body : result json) (u : str) :
  request_url body = Some u ->
  exists data v, body = Ok data /\ get_url data = Ok v /\ value_strip v = Ok u.
Proof.
  unfold request_url. destruct body as [data|e]; [|discriminate].
  destruct data as [| | | | |items|items]; try discriminate.
  intros H. exists (JDict items). simpl.
  destruct (dict_get (lit "url") items) as [v|].
  - exists v. destruct v; try discriminate. injection H as <-.
    repeat split.
  - exists (JStr []). injection H as <-. repeat split.
Qed.


Section ApiFacts.

Variable urlparse : str -> result ParseResult.
Variable web : str -> result (list Init.Byte.byte).
Variable html_parser : list Init.Byte.byte -> result soup.
Variable stdout : str -> result unit.
Variable client : option (str -> str -> result output).
Variable get_json : result json.


Lemma news_url_required (t : trace) :
  request_url get_json = Some [] ->
  summarize_news urlparse web html_parser stdout client get_json t
  = (Ok (ErrorJson (lit "URL is required"), 400), t).
Proof.
  intros H. destruct (request_url_some _ _ H) as (data & v & E1 & E2 & E3).
  unfold summarize_news, try_except, bind, lift, ret.
  rewrite E1, E2, E3. reflexivity.
Qed.

Lemma news_demo (t t' : trace) (u : str) (r : result str) :
  request_url get_json = Some u ->
  u <> [] ->
  startswith (lit "demo://") u = true ->
  summarize stdout client (title demo_article) (content demo_article) t = (r, t') ->
  summarize_news urlparse web html_parser stdout client get_json t
  = (Ok (summary_response r (title demo_article) (url demo_article)), t').
Proof.
  intros H Hne Hd Hs. destruct (request_url_some _ _ H) as (data & v & E1 & E2 & E3).
  apply truthy_true in Hne.
  unfold summarize_news, try_except, bind, lift, ret.
  rewrite E1, E2, E3, Hne, Hd.
  unfold demo_article in *. cbn [title content url] in *. cbn [negb].
  rewrite Hs. destruct r; reflexivity.
Qed.

Lemma news_extract_failed (t t1 : trace) (u reason : str) :
  request_url get_json = Some u ->
  u <> [] ->
  startswith (lit "demo://") u = false ->
  extract_content urlparse web html_parser u t = (Ok (None, Some reason), t1) ->
  reason <> [] ->
  summarize_news urlparse web html_parser stdout client get_json t
  = (Ok (ErrorJson reason, 400), t1).
Proof.
  intros H Hne Hd He Hr. destruct (request_url_some _ _ H) as (data & v & E1 & E2 & E3).
  apply truthy_true in Hne. apply truthy_true in Hr.
  unfold summarize_news, try_except, bind, lift, ret.
  rewrite E1, E2, E3, Hne, Hd. cbn [negb]. rewrite He.
  cbn [error_truthy]. rewrite Hr. reflexivity.
Qed.

Lemma news_extracted (t t1 t2 : trace) (u : str) (r : result str) (art : article) :
  request_url get_json = Some u ->
  u <> [] ->
  startswith (lit "demo://") u = false ->
  extract_content urlparse web html_parser u t = (Ok (Some art, None), t1) ->
  summarize stdout client (title art) (content art) t1 = (r, t2) ->
  summarize_news urlparse web html_parser stdout client get_json t
  = (Ok (summary_response r (title art) u), t2).
Proof.
  intros H Hne Hd He Hs. destruct (request_url_some _ _ H) as (data & v & E1 & E2 & E3).
  apply truthy_true in Hne.
  unfold summarize_news, try_except, bind, lift, ret.
  rewrite E1, E2, E3, Hne, Hd. cbn [negb]. rewrite He.
  destruct art as [ti co ur]. cbn [title content error_truthy] in *.
  rewrite Hs. destruct r; reflexivity.
Qed.

End ApiFacts.

(** X13.  A request whose body is a dict without the key [url], or
    with a string under it that holds nothing but whitespace, is answered
    with status 400 and the error "URL is required"; nothing is fetched
    and the model is not called. *)
Theorem url_is_required
    (urlparse : str -> result ParseResult)
    (web : str -> result (list Init.Byte.byte))
    (html_parser : list Init.Byte.byte -> result soup)
    (stdout : str -> result unit)
    (client : option (str -> str -> result output))
    (items : list (str * json)) (t : trace) :
  dict_get (lit "url") items = None
  \/ (exists s, dict_get (lit "url") items = Some (JStr s) /\ blank s = true) ->
  summarize_news urlparse web html_parser stdout client (Ok (JDict items)) t
  = (Ok (ErrorJson (lit "URL is required"), 400), t).
Proof.
  intros H. apply news_url_required. unfold request_url.
  destruct H as [->|(s & -> & Hs)]; [reflexivity|].
  apply strip_nil_iff in Hs. rewrite Hs. reflexivity.
Qed.

Lemma url_is_required_witness :
  (exists s, dict_get (lit "url") [(lit "lang", JStr (lit "en")); (lit "url", JStr (lit "   "))]
             = Some (JStr s) /\ blank s = true)
  /\ summarize_news urlsplit web_ok (parser_of page_paragraphs) stdout_ok (Some run_text)
       (Ok (JDict [(lit "lang", JStr (lit "en")); (lit "url", JStr (lit "   "))])) []
     = (Ok (ErrorJson (lit "URL is required"), 400), []).
Proof.
  assert (H : exists s,
             dict_get (lit "url") [(lit "lang", JStr (lit "en")); (lit "url", JStr (lit "   "))]
             = Some (JStr s) /\ blank s = true).
  { exists (lit "   "). split; reflexivity. }
  split; [exact H|].
  exact (url_is_required urlsplit web_ok (parser_of page_paragraphs) stdout_ok (Some run_text)
           _ [] (or_intror H)).
Defined.



(** X15.  A request whose trimmed URL starts with [demo://] fetches no
    page and answers from the demo article, whatever follows the prefix
    in the request: with status 200, the title of the demo article, its
    summary and the URL of the demo article when [summarize] returns,
    and with status 500 and the message of the exception when
    [summarize] raises.  Without a client the summary is the fallback
    summary of the demo content; when every line can be printed the
    status is 200. *)
Theorem demo_request
    (urlparse : str -> result ParseResult)
    (web : str -> result (list Init.Byte.byte))
    (html_parser : list Init.Byte.byte -> result soup)
    (stdout : str -> result unit)
    (client : option (str -> str -> result output))
    (get_json : result json) (t : trace) (u : str) :
  request_url get_json = Some u ->
  startswith (lit "demo://") u = true ->
  exists r t',
    summarize stdout client (title demo_article) (content demo_article) t = (r, t')
    /\ summarize_news urlparse web html_parser stdout client get_json t
       = (Ok (match r with
              | Ok summary =>
                  (SuccessJson
                     (lit "Breaking: Scientists Discover New Species in Ocean Depths")
                     summary (lit "demo://sample-news-article"), 200)
              | Raise e => (ErrorJson (lit "An error occurred: " ++ exn_str e), 500)
              end), t')
    /\ filter is_http_get t' = filter is_http_get t
    /\ (client = None ->
        r = Ok (_fallback_summarize (content demo_article)) /\ t' = t)
    /\ ((forall line, stdout line = Ok tt) -> exists summary, r = Ok summary).
Proof.
  intros Hu Hd.
  assert (Hne : u <> []).
  { intros ->. discriminate Hd. }
  destruct (summarize_outcome stdout client (title demo_article) (content demo_article) t)
    as (r & t' & Hs & Hget & Hnone & Hok & _).
  exists r, t'. split; [exact Hs|]. split; [|split; [|split]]; try assumption.
  rewrite (news_demo urlparse web html_parser stdout client get_json t t' u r Hu Hne Hd Hs).
  destruct r; reflexivity.
Qed.

Lemma demo_request_witness :
  request_url (body_with_url "  demo://anything at all ") = Some (lit "demo://anything at all")
  /\ startswith (lit "demo://") (lit "demo://anything at all") = true
  /\ summarize_news urlsplit web_down parser_failing stdout_closed None
       (body_with_url "  demo://anything at all ") []
     = (Ok (SuccessJson (lit "Breaking: Scientists Discover New Species in Ocean Depths")
              (_fallback_summarize (content demo_article))
              (lit "demo://sample-news-article"), 200), [])
  /\ summarize_news urlsplit web_down parser_failing stdout_closed (Some run_failing)
       (body_with_url "  demo://anything at all ") []
     = (Ok (ErrorJson (lit "An error occurred: I/O operation on closed file."), 500),
        [ReplicateRun MODEL (build_prompt (title demo_article) (content demo_article));
         PrintLine (lit "Replicate API error: 401 Unauthorized")]).
Proof.
  split; [reflexivity|]. split; [reflexivity|]. split.
  - destruct (demo_request urlsplit web_down parser_failing stdout_closed None
                (body_with_url "  demo://anything at all ") [] _ eq_refl eq_refl)
      as (r & t' & _ & E & _ & Hnone & _).
    destruct (Hnone eq_refl) as [-> ->]. exact E.
  - destruct (demo_request urlsplit web_down parser_failing stdout_closed (Some run_failing)
                (body_with_url "  demo://anything at all ") [] _ eq_refl eq_refl)
      as (r & t' & Hs & E & _).
    rewrite E.
    rewrite (summarize_failed stdout_closed run_failing _ _ [] _ eq_refl) in Hs.
    injection Hs as <- <-. reflexivity.
Defined.

(** X16.  When the extraction of a URL that is not a demo URL fails,
    the endpoint answers with status 400 and the reason of the
    extractor, and the model is not called. *)
Theorem extraction_failure_is_400
    (urlparse : str -> result ParseResult)
    (web : str -> result (list Init.Byte.byte))
    (html_parser : list Init.Byte.byte -> result soup)
    (stdout : str -> result unit)
    (client : option (str -> str -> result output))
    (get_json : result json) (t t1 : trace) (u reason : str) :
  request_url get_json = Some u ->
  u <> [] ->
  startswith (lit "demo://") u = false ->
  extract_content urlparse web html_parser u t = (Ok (None, Some reason), t1) ->
  summarize_news urlparse web html_parser stdout client get_json t
  = (Ok (ErrorJson reason, 400), t1)
  /\ filter is_replicate_run t1 = filter is_replicate_run t.
Proof.
  intros Hu Hne Hd He.
  assert (H : reason <> [] /\ filter is_replicate_run t1 = filter is_replicate_run t).
  { destruct (extract_content_cases urlparse web html_parser u t)
      as [[_ E]|[(_ & r & Hr & E)|(_ & bd & sp & _ & _ & _ & E)]];
      rewrite E in He.
    - injection He as <- <-. split; [discriminate|reflexivity].
    - injection He as <- <-. split; [exact Hr|].
      rewrite filter_app. simpl. apply app_nil_r.
    - discriminate He. }
  destruct H as [Hr Hrun]. split; [|exact Hrun].
  exact (news_extract_failed urlparse web html_parser stdout client get_json t t1 u reason
           Hu Hne Hd He Hr).
Qed.

Lemma extraction_failure_is_400_witness :
  request_url (body_with_url "https://example.com/a") = Some (lit "https://example.com/a")
  /\ summarize_news urlsplit web_down (parser_of page_paragraphs) stdout_ok (Some run_text)
       (body_with_url "https://example.com/a") []
     = (Ok (ErrorJson (lit "Error fetching URL: Connection refused"), 400),
        [HttpGet (lit "https://example.com/a")]).
Proof.
  split; [reflexivity|].
  apply (proj1 (extraction_failure_is_400 urlsplit web_down (parser_of page_paragraphs)
                  stdout_ok (Some run_text) (body_with_url "https://example.com/a") []
                  [HttpGet (lit "https://example.com/a")] (lit "https://example.com/a")
                  (lit "Error fetching URL: Connection refused")
                  eq_refl ltac:(discriminate) eq_refl eq_refl)).
Defined.

(** X17.  For a valid URL that is not a demo URL and whose page was
    fetched, parsed and has content, the page is fetched once and then
    [summarize] is called on the title of the page and the cleaned
    content.  When it returns, the endpoint answers with status 200, the
    title, the summary and the URL as it was read from the request,
    trimmed; when it raises, with status 500 and the message of the
    exception.  Without a client the summary is the fallback summary;
    when every line can be printed the status is 200. *)
Theorem article_request
    (urlparse : str -> result ParseResult)
    (web : str -> result (list Init.Byte.byte))
    (html_parser : list Init.Byte.byte -> result soup)
    (stdout : str -> result unit)
    (client : option (str -> str -> result output))
    (get_json : result json) (t : trace) (u : str)
    (body : list Init.Byte.byte) (sp : soup) :
  request_url get_json = Some u ->
  u <> [] ->
  startswith (lit "demo://") u = false ->
  _is_valid_url urlparse u = true ->
  web u = Ok body ->
  html_parser body = Ok sp ->
  _extract_article_content sp <> [] ->
  exists r t',
    summarize stdout client (_extract_title sp) (_extract_article_content sp)
      (t ++ [HttpGet u])
    = (r, t')
    /\ summarize_news urlparse web html_parser stdout client get_json t
       = (Ok (match r with
              | Ok summary => (SuccessJson (_extract_title sp) summary u, 200)
              | Raise e => (ErrorJson (lit "An error occurred: " ++ exn_str e), 500)
              end), t')
    /\ filter is_http_get t' = filter is_http_get t ++ [HttpGet u]
    /\ (client = None ->
        r = Ok (_fallback_summarize (_extract_article_content sp))
        /\ t' = t ++ [HttpGet u])
    /\ ((forall line, stdout line = Ok tt) -> exists summary, r = Ok summary).
Proof.
  intros Hu Hne Hd Hv Hw Hp Hc.
  pose proof (extract_content_fetched urlparse web html_parser u t body sp Hv Hw Hp) as E.
  apply truthy_true in Hc. rewrite Hc in E. simpl negb in E. cbv iota in E.
  destruct (summarize_outcome stdout client (_extract_title sp) (_extract_article_content sp)
              (t ++ [HttpGet u])) as (r & t' & Hs & Hget & Hnone & Hok & _).
  exists r, t'. split; [exact Hs|]. split; [|split; [|split]]; try assumption.
  - rewrite (news_extracted urlparse web html_parser stdout client get_json t _ t' u r _
               Hu Hne Hd E Hs).
    destruct r; reflexivity.
  - rewrite Hget, filter_app. reflexivity.
Qed.

Lemma article_request_witness :
  request_url (body_with_url " https://example.com/a ") = Some (lit "https://example.com/a")
  /\ _is_valid_url urlsplit (lit "https://example.com/a") = true
  /\ _extract_article_content page_paragraphs <> []
  /\ summarize_news urlsplit web_ok (parser_of page_paragraphs) stdout_ok (Some run_text)
       (body_with_url " https://example.com/a ") []
     = (Ok (SuccessJson (lit "Article Title") (lit "A short summary.")
              (lit "https://example.com/a"), 200),
        [HttpGet (lit "https://example.com/a");
         ReplicateRun MODEL
           (build_prompt (lit "Article Title")
              (lit "Rain is expected over the coast. Winds will ease by the evening."))])
  /\ fst (summarize_news urlsplit web_ok (parser_of page_paragraphs) stdout_closed
            (Some run_failing) (body_with_url " https://example.com/a ") [])
     = Ok (ErrorJson (lit "An error occurred: I/O operation on closed file."), 500).
Proof.
  assert (Hc : _extract_article_content page_paragraphs <> []).
  { vm_compute. discriminate. }
  split; [reflexivity|]. split; [reflexivity|]. split; [exact Hc|]. split.
  - destruct (article_request urlsplit web_ok (parser_of page_paragraphs) stdout_ok
                (Some run_text) (body_with_url " https://example.com/a ") []
                (lit "https://example.com/a") [] page_paragraphs
                eq_refl ltac:(discriminate) eq_refl eq_refl eq_refl eq_refl Hc)
      as (r & t' & Hs & E & _).
    rewrite E. vm_compute in Hs. injection Hs as <- <-. reflexivity.
  - destruct (article_request urlsplit web_ok (parser_of page_paragraphs) stdout_closed
                (Some run_failing) (body_with_url " https://example.com/a ") []
                (lit "https://example.com/a") [] page_paragraphs
                eq_refl ltac:(discriminate) eq_refl eq_refl eq_refl eq_refl Hc)
      as (r & t' & Hs & E & _).
    rewrite E. vm_compute in Hs. injection Hs as <- <-. reflexivity.
Defined.

(** X18.  When the text kept by the selector scan has fewer than 100
    characters and no paragraph has more than 20, the content is empty:
    the short text that the scan found is given up, not returned. *)
Theorem short_page_has_no_content (sp : soup) :
  length (selector_scan (decompose_all noise_tags sp)) < 100 ->
  (forall p, In p (find_all (lit "p") (decompose_all noise_tags sp)) ->
             length (strip (get_text p)) <= 20) ->
  _extract_article_content sp = [].
Proof.
  intros Hscan Hp.
  unfold _extract_article_content, raw_content, paragraph_fallback.
  apply Nat.ltb_lt in Hscan. rewrite Hscan. unfold paragraph_texts.
  assert (E : filter (fun p => 20 <? length (strip (get_text p)))
                (find_all (lit "p") (decompose_all noise_tags sp)) = []).
  { induction (find_all (lit "p") (decompose_all noise_tags sp)) as [|p ps IH];
      [reflexivity|].
    simpl. destruct (20 <? length (strip (get_text p))) eqn:El.
    - apply Nat.ltb_lt in El. specialize (Hp p (or_introl eq_refl)). lia.
    - apply IH. intros q Hq. apply Hp. right. exact Hq. }
  rewrite E. reflexivity.
Qed.

Lemma short_page_has_no_content_witness :
  selector_scan (decompose_all noise_tags page_short_article) = lit "Flood warningStay away."
  /\ _extract_article_content page_short_article = [].
Proof.
  split; [reflexivity|].
  apply short_page_has_no_content.
  - vm_compute. lia.
  - intros p Hp. simpl in Hp. destruct Hp as [<-|[]]. vm_compute. lia.
Defined.
